(** * Maji Ndogo data pipeline: field corrector and weather message extractor

    A shallow embedding of [field_data_processor.py] and
    [weather_data_processor.py].  A pandas [DataFrame] is an ordered list
    of labelled columns, a [Series] is a list of scalar cells, Python
    exceptions are an explicit error type threaded through a small result
    monad, and the attributes of a processor object ([df], [weather_df],
    [weather_df_mean]) are fields of an explicit state record.

    Modelling conventions, fixed once for the whole file:
    - text is made of 8-bit characters; the character classes ([isspace],
      [isdigit], [\d], [\s], [lower]) are the ASCII part of Python's;
    - a float cell is modelled by the rational number it denotes, kept in
      lowest terms, so binary rounding is outside the model; NaN and
      [None] are the single null cell [VNull];
    - decimal literals are read by [parse_decimal]: optional sign, digits,
      optional fraction.  Exponent, [inf] and [nan] spellings are outside
      the grammar;
    - a column has no dtype of its own: it is an [object] column when a
      cell is text.  Where a property depends on what the cells cannot
      tell (an all-null column, the wrap-around of [abs] on the least
      [int64], the rounding of a mean) its statement says so, with
      [Dtype], [Binary64] and [Means]. *)

From Stdlib Require Import String Ascii List Bool Arith ZArith QArith Qabs Lia.
Import ListNotations.
Open Scope string_scope.

(** ** Text primitives *)

Module Text.

Definition is_digit (c : ascii) : bool :=
  let n := nat_of_ascii c in (48 <=? n)%nat && (n <=? 57)%nat.

(** [str.isspace] on one ASCII character: TAB..CR, FS..US and the blank. *)
Definition is_space (c : ascii) : bool :=
  let n := nat_of_ascii c in
  ((9 <=? n)%nat && (n <=? 13)%nat) || ((28 <=? n)%nat && (n <=? 32)%nat).

Definition is_upper (c : ascii) : bool :=
  let n := nat_of_ascii c in (65 <=? n)%nat && (n <=? 90)%nat.

Definition lower_char (c : ascii) : ascii :=
  if is_upper c then ascii_of_nat (nat_of_ascii c + 32) else c.

Fixpoint lstrip (l : list ascii) : list ascii :=
  match l with
  | c :: l' => if is_space c then lstrip l' else l
  | [] => []
  end.

Definition rstrip (l : list ascii) : list ascii := rev (lstrip (rev l)).

(** [str.strip()] with no argument. *)
Definition strip_chars (l : list ascii) : list ascii := rstrip (lstrip l).

Definition lower_chars (l : list ascii) : list ascii := map lower_char l.

Definition strip (s : string) : string :=
  string_of_list_ascii (strip_chars (list_ascii_of_string s)).

Definition lower (s : string) : string :=
  string_of_list_ascii (lower_chars (list_ascii_of_string s)).

(** [s.replace(c, '')] for a one-character [c]. *)
Definition remove_char (c : ascii) (l : list ascii) : list ascii :=
  filter (fun x => negb (Ascii.eqb x c)) l.

(** [str.isdigit]: non-empty and made of digits only. *)
Definition isdigit (l : list ascii) : bool :=
  match l with
  | [] => false
  | _ => forallb is_digit l
  end.

Fixpoint span_digits (l : list ascii) : list ascii * list ascii :=
  match l with
  | c :: l' =>
      if is_digit c
      then let (d, r) := span_digits l' in (c :: d, r)
      else ([], l)
  | [] => ([], [])
  end.

Definition digit_val (c : ascii) : Z := Z.of_nat (nat_of_ascii c - 48).

Definition digits_val (l : list ascii) : Z :=
  fold_left (fun acc c => 10 * acc + digit_val c)%Z l 0%Z.

Definition is_nil {A} (l : list A) : bool :=
  match l with [] => true | _ => false end.

(** Digits, then optionally a point and more digits; at least one digit
    overall.  ["5."] and [".5"] are literals, ["."] is not. *)
Definition parse_unsigned (l : list ascii) : option Q :=
  let (ip, r1) := span_digits l in
  match r1 with
  | [] => if is_nil ip then None else Some (Qred (digits_val ip # 1))
  | c :: r2 =>
      if Ascii.eqb c "."%char then
        let (fp, r3) := span_digits r2 in
        if is_nil r3 && negb (is_nil ip && is_nil fp)
        then Some (Qred (digits_val (ip ++ fp)%list
                         # Z.to_pos (10 ^ Z.of_nat (length fp))))
        else None
      else None
  end.

Definition parse_signed (l : list ascii) : option Q :=
  match l with
  | c :: l' =>
      if Ascii.eqb c "-"%char then option_map (fun q => Qred (- q)) (parse_unsigned l')
      else if Ascii.eqb c "+"%char then parse_unsigned l'
      else parse_unsigned l
  | [] => None
  end.

(** The decimal reader shared by [float(...)] and [pd.to_numeric]: blanks
    around the literal are skipped. *)
Definition parse_decimal (s : string) : option Q :=
  parse_signed (strip_chars (list_ascii_of_string s)).

End Text.

(** ** Exceptions *)

Inductive error : Type :=
| KeyError (key : string)
| IndexError
| TypeError
| ValueError
| AttributeError
| FetchError (msg : string).

Inductive result (A : Type) : Type :=
| Ok (a : A)
| Raise (e : error).
Arguments Ok {A} a.
Arguments Raise {A} e.

Definition bind {A B} (r : result A) (k : A -> result B) : result B :=
  match r with
  | Ok a => k a
  | Raise e => Raise e
  end.

Declare Scope py_scope.
Notation "x <- c1 ;; c2" := (bind c1 (fun x => c2))
  (at level 61, c1 at next level, right associativity) : py_scope.
Open Scope py_scope.

Fixpoint map_result {A B} (f : A -> result B) (l : list A) : result (list B) :=
  match l with
  | [] => Ok []
  | a :: l' => b <- f a ;; bs <- map_result f l' ;; Ok (b :: bs)
  end.

(** ** Tables *)

Inductive value : Type :=
| VNull
| VNum (q : Q)
| VText (s : string).

(** A [Series]: the cells of one column, in row order. *)
Definition column := list value.

(** A [DataFrame]: labelled columns in column order.  pandas does not
    forbid two columns with one label, so neither does the model. *)
Definition table := list (string * column).

(** An insertion-ordered [dict] with text keys. *)
Definition dict (V : Type) := list (string * V).

Module Dict.

Fixpoint get {V} (d : dict V) (k : string) : option V :=
  match d with
  | [] => None
  | (k', v) :: d' => if String.eqb k' k then Some v else get d' k
  end.

(** [d[k] = v]: overwrite in place, or append. *)
Fixpoint set {V} (d : dict V) (k : string) (v : V) : dict V :=
  match d with
  | [] => [(k, v)]
  | (k', v') :: d' =>
      if String.eqb k' k then (k', v) :: d' else (k', v') :: set d' k v
  end.

Definition keys {V} (d : dict V) : list string := map fst d.
Definition values {V} (d : dict V) : list V := map snd d.
Definition mem {V} (d : dict V) (k : string) : bool :=
  match get d k with Some _ => true | None => false end.

(** [list(xs)[0]] *)
Definition first {A} (l : list A) : result A :=
  match l with
  | a :: _ => Ok a
  | [] => Raise IndexError
  end.

End Dict.

Module Frame.

Definition columns (T : table) : list string := map fst T.

Definition has_column (T : table) (name : string) : bool :=
  existsb (String.eqb name) (columns T).

(** The columns carrying label [name]. *)
Definition select (T : table) (name : string) : list column :=
  map snd (filter (fun p => String.eqb (fst p) name) T).

(** [df.rename(columns=m)]: each label is looked up in [m]; labels that
    [m] does not mention stay, keys of [m] that are not labels are
    ignored. *)
Definition rename (m : dict string) (T : table) : table :=
  map (fun p => (match Dict.get m (fst p) with
                 | Some n => n
                 | None => fst p
                 end, snd p)) T.

(** [df[name] = f(df[name])], for every column under that label. *)
Definition update (T : table) (name : string) (f : column -> column) : table :=
  map (fun p => if String.eqb (fst p) name then (fst p, f (snd p)) else p) T.

(** [df[name] = c]: replace the column if the label exists, else add it
    as the last column. *)
Definition assign (T : table) (name : string) (c : column) : table :=
  if has_column T name then update T name (fun _ => c) else (T ++ [(name, c)])%list.

(** Cell of the only column labelled [name], at row [i]. *)
Definition cell (df : table) (name : string) (i : nat) : option value :=
  match select df name with
  | [c] => nth_error c i
  | _ => None
  end.

Definition is_text (v : value) : bool :=
  match v with VText _ => true | _ => false end.

Definition is_null (v : value) : bool :=
  match v with VNull => true | _ => false end.

(** dtype inference: a column is an [object] column when some cell is
    text, a [float64] column otherwise. *)
Definition is_object (c : column) : bool := existsb is_text c.

End Frame.

(** ** [field_data_processor.py] *)

Module FieldDataProcessor.

(** The configuration entries the correction steps read. *)
Record config : Type := {
  columns_to_rename : dict string;
  values_to_rename : dict string
}.

(** The [while temp_name in self.df.columns: temp_name += "_"] loop.
    [fuel] bounds the number of iterations; [temp_name_for] runs it with
    one iteration per column, which the loop never exceeds. *)
Fixpoint temp_name_loop (fuel : nat) (temp_name : string) (cols : list string)
  : string :=
  match fuel with
  | O => temp_name
  | S n =>
      if existsb (String.eqb temp_name) cols
      then temp_name_loop n (temp_name ++ "_") cols
      else temp_name
  end.

Definition temp_name_for (cols : list string) : string :=
  temp_name_loop (length cols) "__temp_name_for_swap__" cols.

(** The columns at least [k] characters long: those a name that has
    grown to length [k] can still collide with.  Their number bounds the
    iterations left. *)
Definition long (k : nat) (cols : list string) : list string :=
  filter (fun c => (k <=? String.length c)%nat) cols.

(** Lines 127-140 of [rename_columns]: the swap itself. *)
Definition swap_columns (cfg : config) (df : table) : result table :=
  column1 <- Dict.first (Dict.keys (columns_to_rename cfg)) ;;
  column2 <- Dict.first (Dict.values (columns_to_rename cfg)) ;;
  let temp_name := temp_name_for (Frame.columns df) in
  let df1 :=
    Frame.rename (Dict.set (Dict.set [] column1 temp_name) column2 column1) df in
  Ok (Frame.rename (Dict.set [] temp_name column2) df1).

(** [pd.to_numeric(series, errors='coerce')], cell by cell. *)
Definition coerce_cell (v : value) : value :=
  match v with
  | VText s =>
      match Text.parse_decimal s with
      | Some q => VNum q
      | None => VNull
      end
  | _ => v
  end.

Definition to_numeric_coerce (c : column) : column := map coerce_cell c.

(** Lines 142-145: [df['Annual_yield']] is a [Series] only when exactly
    one column carries the label; none is a [KeyError], several make it a
    frame, which [pd.to_numeric] rejects. *)
Definition coerce_yield (df : table) : result table :=
  match Frame.select df "Annual_yield" with
  | [] => Raise (KeyError "Annual_yield")
  | [c] => Ok (Frame.assign df "Annual_yield" (to_numeric_coerce c))
  | _ => Raise TypeError
  end.

Definition rename_columns (cfg : config) (df : table) : result table :=
  df' <- swap_columns cfg df ;;
  coerce_yield df'.

(** [abs] of one cell; text has no absolute value.  The magnitude is the
    exact one: the wrap-around of the least [int64] on an integer column,
    and the [TypeError] of [abs(None)] on an [object] column of nulls,
    are what [Dtype.int64_safe] and [Dtype.numeric] set aside. *)
Definition abs_cell (v : value) : result value :=
  match v with
  | VNull => Ok VNull
  | VNum q => Ok (VNum (Qabs q))
  | VText _ => Raise TypeError
  end.

(** [df[abs_column] = df[abs_column].abs()] *)
Definition abs_step (df : table) (abs_column : string) : result table :=
  match Frame.select df abs_column with
  | [] => Raise (KeyError abs_column)
  | _ =>
      map_result
        (fun p => if String.eqb (fst p) abs_column
                  then c <- map_result abs_cell (snd p) ;; Ok (fst p, c)
                  else Ok p) df
  end.

(** A [.str] method on a column: only an [object] column has the
    accessor, and cells that are not text come out null.  A column
    without text is taken for a numeric one; an [object] column of nulls
    only, which has the accessor, is not told apart (see [Dtype]). *)
Definition str_method (f : string -> string) (c : column) : result column :=
  if Frame.is_object c
  then Ok (map (fun v => match v with
                         | VText s => VText (f s)
                         | _ => VNull
                         end) c)
  else Raise AttributeError.

(** [trim + lowercase] of one token. *)
Definition normalize (s : string) : string := Text.lower (Text.strip s).

(** [lambda crop: self.values_to_rename.get(crop, crop)] *)
Definition correct_cell (m : dict string) (v : value) : value :=
  match v with
  | VText s =>
      match Dict.get m s with
      | Some t => VText t
      | None => VText s
      end
  | _ => v
  end.

(** Lines 162-168 on the crop-type column alone. *)
Definition correct_column (m : dict string) (c : column) : result column :=
  c1 <- str_method Text.strip c ;;
  c2 <- str_method Text.lower c1 ;;
  Ok (map (correct_cell m) c2).

(** [df[name]] where the code goes on to use a [Series] method: no such
    label is a [KeyError]; several columns under the label make it a
    frame, on which the method is missing. *)
Definition series (df : table) (name : string) : result column :=
  match Frame.select df name with
  | [] => Raise (KeyError name)
  | [c] => Ok c
  | _ => Raise AttributeError
  end.

Definition crop_step (cfg : config) (df : table) (column_name : string)
  : result table :=
  c <- series df column_name ;;
  c1 <- str_method Text.strip c ;;
  c2 <- str_method Text.lower c1 ;;
  let df1 := Frame.assign df column_name c2 in
  c3 <- series df1 column_name ;;
  Ok (Frame.assign df1 column_name (map (correct_cell (values_to_rename cfg)) c3)).

Definition apply_corrections (cfg : config) (df : table)
    (column_name abs_column : string) : result table :=
  df1 <- abs_step df abs_column ;;
  crop_step cfg df1 column_name.

(** The correction part of [process]: [rename_columns()] then
    [apply_corrections()] with its default arguments. *)
Definition correct (cfg : config) (df : table) : result table :=
  df1 <- rename_columns cfg df ;;
  apply_corrections cfg df1 "Crop_type" "Elevation".

(** What lines 162-168 do to one text cell: normalise, then look the
    token up. *)
Definition correct_token (m : dict string) (s : string) : string :=
  match Dict.get m (normalize s) with
  | Some t => t
  | None => normalize s
  end.

(** The same on any cell: under [.str], what is not text comes out null. *)
Definition step_cell (m : dict string) (v : value) : value :=
  match v with
  | VText s => VText (correct_token m s)
  | _ => VNull
  end.

(** The exchange of two labels, and a table relabelled by a function:
    the swap a rename pair asks for. *)
Definition exchange (a b n : string) : string :=
  if String.eqb n a then b else if String.eqb n b then a else n.

Definition relabel (f : string -> string) (df : table) : table :=
  map (fun p => (f (fst p), snd p)) df.

End FieldDataProcessor.

Module ScenarioA.
Import FieldDataProcessor.

Definition cfg : config := {|
  columns_to_rename := [("Annual_yield", "Crop_type"); ("Crop_type", "Annual_yield")];
  values_to_rename := [("cassaval", "cassava")]
|}.

Definition survey : table :=
  [ ("Field_ID", [VText "F1"]);
    ("Crop_type", [VText "150.0"]);
    ("Annual_yield", [VText " Cassaval "]);
    ("Elevation", [VNum (-123 # 10)]) ].

End ScenarioA.

(** ** Regular expressions: the fragment of [re] the patterns use *)

Module Regex.

Inductive atom : Type :=
| ALit (c : ascii)      (* a literal character *)
| ADigit                (* \d *)
| ASpace                (* \s *)
| AAny.                 (* .  : anything but a newline *)

Inductive regex : Type :=
| Empty
| Atom (a : atom)
| Seq (r1 r2 : regex)
| Alt (r1 r2 : regex)
| Star (r : regex)
| Plus (r : regex)
| Opt (r : regex)
| Group (n : nat) (r : regex).   (* the n-th capturing group, from 1 *)

Definition atom_matches (a : atom) (c : ascii) : bool :=
  match a with
  | ALit x => Ascii.eqb x c
  | ADigit => Text.is_digit c
  | ASpace => Text.is_space c
  | AAny => negb (Ascii.eqb c "010"%char)
  end.

(** *** Reading a pattern

    [compile] reads literals, [\d], [\s], escaped punctuation, [.],
    capturing groups, [|] and the greedy [*], [+], [?].  Anything else
    ([[...]], [{m,n}], [(?...)], anchors, lazy quantifiers, other letter
    escapes) is outside the fragment and is answered by [None]. *)

Definition is_alnum (c : ascii) : bool :=
  let n := nat_of_ascii c in
  Text.is_digit c || ((65 <=? n)%nat && (n <=? 90)%nat)
  || ((97 <=? n)%nat && (n <=? 122)%nat).

Definition is_quantifier (c : ascii) : bool :=
  Ascii.eqb c "*"%char || Ascii.eqb c "+"%char || Ascii.eqb c "?"%char
  || Ascii.eqb c "{"%char.

Definition is_special (c : ascii) : bool :=
  is_quantifier c || Ascii.eqb c "}"%char || Ascii.eqb c "["%char
  || Ascii.eqb c "]"%char || Ascii.eqb c "^"%char || Ascii.eqb c "$"%char.

Definition starts_with_quantifier (l : list ascii) : bool :=
  match l with
  | c :: _ => is_quantifier c
  | [] => false
  end.

(** The greedy quantifier after an item, if any. *)
Definition quantify (r : regex) (l : list ascii) (g : nat)
  : option (regex * list ascii * nat) :=
  match l with
  | c :: l' =>
      if Ascii.eqb c "*"%char then
        if starts_with_quantifier l' then None else Some (Star r, l', g)
      else if Ascii.eqb c "+"%char then
        if starts_with_quantifier l' then None else Some (Plus r, l', g)
      else if Ascii.eqb c "?"%char then
        if starts_with_quantifier l' then None else Some (Opt r, l', g)
      else if Ascii.eqb c "{"%char then None
      else Some (r, l, g)
  | [] => Some (r, l, g)
  end.

(** [g] is the number of groups opened so far. *)
Fixpoint parse_alt (fuel : nat) (l : list ascii) (g : nat)
  : option (regex * list ascii * nat) :=
  match fuel with
  | O => None
  | S n =>
      match parse_seq n l g with
      | Some (r1, c :: l1, g1) =>
          if Ascii.eqb c "|"%char then
            match parse_alt n l1 g1 with
            | Some (r2, l2, g2) => Some (Alt r1 r2, l2, g2)
            | None => None
            end
          else Some (r1, c :: l1, g1)
      | other => other
      end
  end
with parse_seq (fuel : nat) (l : list ascii) (g : nat)
  : option (regex * list ascii * nat) :=
  match fuel with
  | O => None
  | S n =>
      match l with
      | [] => Some (Empty, l, g)
      | c :: _ =>
          if Ascii.eqb c "|"%char || Ascii.eqb c ")"%char then Some (Empty, l, g)
          else
            match parse_item n l g with
            | Some (r1, l1, g1) =>
                match parse_seq n l1 g1 with
                | Some (Empty, l2, g2) => Some (r1, l2, g2)
                | Some (r2, l2, g2) => Some (Seq r1 r2, l2, g2)
                | None => None
                end
            | None => None
            end
      end
  end
with parse_item (fuel : nat) (l : list ascii) (g : nat)
  : option (regex * list ascii * nat) :=
  match fuel with
  | O => None
  | S n =>
      match l with
      | [] => None
      | c :: l1 =>
          if Ascii.eqb c "("%char then
            match l1 with
            | q :: _ =>
                if Ascii.eqb q "?"%char then None
                else
                  match parse_alt n l1 (S g) with
                  | Some (r, c2 :: l2, g2) =>
                      if Ascii.eqb c2 ")"%char
                      then quantify (Group (S g) r) l2 g2
                      else None
                  | _ => None
                  end
            | [] => None
            end
          else if Ascii.eqb c "\"%char then
            match l1 with
            | e :: l2 =>
                if Ascii.eqb e "d"%char then quantify (Atom ADigit) l2 g
                else if Ascii.eqb e "s"%char then quantify (Atom ASpace) l2 g
                else if is_alnum e then None
                else quantify (Atom (ALit e)) l2 g
            | [] => None
            end
          else if Ascii.eqb c "."%char then quantify (Atom AAny) l1 g
          else if is_special c then None
          else quantify (Atom (ALit c)) l1 g
      end
  end.

(** [re.compile(pattern)], on the fragment. *)
Definition compile (pattern : string) : option regex :=
  let l := list_ascii_of_string pattern in
  match parse_alt (3 * length l + 3) l 0 with
  | Some (r, [], _) => Some r
  | _ => None
  end.

(** *** Matching

    A backtracking matcher in continuation-passing style, with the
    priorities of [re]: the left alternative first, as many repetitions
    as possible first.  [caps] records the text of the groups that took
    part, the most recent capture of a group in front. *)

Definition caps := list (nat * list ascii).
Definition cont := list ascii -> caps -> option caps.

(** Repetition of [step].  Each round must consume input, so [fuel], the
    length of the remaining input, is never what ends the loop. *)
Fixpoint star (step : list ascii -> caps -> cont -> option caps)
    (fuel : nat) (s : list ascii) (c : caps) (k : cont) : option caps :=
  match fuel with
  | O => k s c
  | S n =>
      match step s c (fun s1 c1 =>
                        if (length s1 <? length s)%nat
                        then star step n s1 c1 k
                        else None) with
      | Some c' => Some c'
      | None => k s c
      end
  end.

Fixpoint run (r : regex) (s : list ascii) (c : caps) (k : cont) : option caps :=
  match r with
  | Empty => k s c
  | Atom a =>
      match s with
      | x :: s' => if atom_matches a x then k s' c else None
      | [] => None
      end
  | Seq r1 r2 => run r1 s c (fun s1 c1 => run r2 s1 c1 k)
  | Alt r1 r2 =>
      match run r1 s c k with
      | Some c' => Some c'
      | None => run r2 s c k
      end
  | Star r1 => star (run r1) (length s) s c k
  | Plus r1 => run r1 s c (fun s1 c1 => star (run r1) (length s1) s1 c1 k)
  | Opt r1 =>
      match run r1 s c k with
      | Some c' => Some c'
      | None => k s c
      end
  | Group n r1 =>
      run r1 s c (fun s1 c1 => k s1 ((n, firstn (length s - length s1) s) :: c1))
  end.

(** [re.search]: the first start position, from the left, with a match. *)
Fixpoint search_from (r : regex) (s : list ascii) : option caps :=
  match run r s [] (fun _ c => Some c) with
  | Some c => Some c
  | None =>
      match s with
      | [] => None
      | _ :: s' => search_from r s'
      end
  end.

Fixpoint ngroups (r : regex) : nat :=
  match r with
  | Empty | Atom _ => 0
  | Seq r1 r2 | Alt r1 r2 => Nat.max (ngroups r1) (ngroups r2)
  | Star r1 | Plus r1 | Opt r1 => ngroups r1
  | Group n r1 => Nat.max n (ngroups r1)
  end.

Fixpoint lookup (c : caps) (n : nat) : option (list ascii) :=
  match c with
  | [] => None
  | (m, t) :: c' => if Nat.eqb m n then Some t else lookup c' n
  end.

(** [match.groups()]: one entry per group of the pattern, [None] for a
    group that took no part in the match. *)
Definition groups (r : regex) (c : caps) : list (option string) :=
  map (fun n => option_map string_of_list_ascii (lookup c n))
      (seq 1 (ngroups r)).

(** [re.search(pattern, message)] followed by [.groups()]; [None] when
    there is no match. *)
Definition search (r : regex) (message : string) : option (list (option string)) :=
  option_map (groups r) (search_from r (list_ascii_of_string message)).

End Regex.


(** ** [weather_data_processor.py] *)

Module WeatherDataProcessor.

(** The result of [groupby(station)[measurements].mean()]: the group
    keys, and one column of means per measurement, aligned with them. *)
Record aggregate : Type := {
  agg_by : string;
  agg_index : list value;
  agg_columns : table
}.

(** The attributes of a processor: the compiled patterns of the
    configuration, the weather table, the table of means. *)
Record state : Type := {
  regex_patterns : dict Regex.regex;
  weather_df : option table;
  weather_df_mean : option aggregate
}.

Definition set_weather_df (st : state) (df : table) : state :=
  {| regex_patterns := regex_patterns st;
     weather_df := Some df;
     weather_df_mean := weather_df_mean st |}.

Definition set_weather_df_mean (st : state) (a : aggregate) : state :=
  {| regex_patterns := regex_patterns st;
     weather_df := weather_df st;
     weather_df_mean := Some a |}.

(** [read_from_web_CSV] is outside the program: [csv] is what the call
    gives, a table or the exception it raises. *)
Definition weather_station_mapping (csv : result table) (st : state)
  : result state :=
  df <- csv ;;
  Ok (set_weather_df st df).

(** [group and group.replace('.', '').replace('-', '').isdigit()] *)
Definition numeric_guard (group : option string) : bool :=
  match group with
  | None => false
  | Some g =>
      negb (String.eqb g "")
      && Text.isdigit
           (Text.remove_char "-" (Text.remove_char "." (list_ascii_of_string g)))
  end.

(** [float(group)].  The guard lets through only text made of digits,
    points and minus signs; on such text [parse_decimal] accepts exactly
    what [float] accepts. *)
Definition py_float (g : string) : result Q :=
  match Text.parse_decimal g with
  | Some q => Ok q
  | None => Raise ValueError
  end.

(** The [for group in match.groups()] loop. *)
Fixpoint first_numeric (groups : list (option string)) : result (option Q) :=
  match groups with
  | [] => Ok None
  | group :: rest =>
      if numeric_guard group then
        match group with
        | Some g => q <- py_float g ;; Ok (Some q)
        | None => first_numeric rest
        end
      else first_numeric rest
  end.

Definition extract_measurement (patterns : dict Regex.regex)
    (message : string) (measurement_type : string) : result (option Q) :=
  match Dict.get patterns measurement_type with
  | None => Ok None
  | Some pattern =>
      match Regex.search pattern message with
      | Some groups => first_numeric groups
      | None => Ok None
      end
  end.

(** The [lambda] applied to one cell of the [Message] column; [re.search]
    takes text only. *)
Definition extract_cell (patterns : dict Regex.regex)
    (measurement_type : string) (msg : value) : result value :=
  match msg with
  | VText m =>
      r <- extract_measurement patterns m measurement_type ;;
      Ok (match r with
          | Some q => VNum q
          | None => VNull
          end)
  | _ => Raise TypeError
  end.

(** [self.weather_df['Message'].apply(...)]; on a frame, [apply] hands
    whole columns to the [lambda]. *)
Definition message_apply (patterns : dict Regex.regex) (df : table)
    (measurement_type : string) : result column :=
  match Frame.select df "Message" with
  | [] => Raise (KeyError "Message")
  | [c] => map_result (extract_cell patterns measurement_type) c
  | _ => Raise TypeError
  end.

(** The loop over [self.regex_patterns.keys()]. *)
Fixpoint process_loop (patterns : dict Regex.regex) (names : list string)
    (df : table) : result table :=
  match names with
  | [] => Ok df
  | measurement_type :: rest =>
      c <- message_apply patterns df measurement_type ;;
      process_loop patterns rest (Frame.assign df measurement_type c)
  end.

(** [process_messages].  An exception leaves the method; the table it
    had half filled in by then is not kept by the model. *)
Definition process_messages (st : state) : result state :=
  match weather_df st with
  | None => Ok st
  | Some df =>
      df' <- process_loop (regex_patterns st) (Dict.keys (regex_patterns st)) df ;;
      Ok (set_weather_df st df')
  end.

(** *** Aggregation *)

Definition possible_names : list string :=
  ["Weather_station"; "Station"; "weather_station"; "Weather_Station"; "Station_ID"].

Definition station_column_of (cols : list string) : option string :=
  match find (fun n => existsb (String.eqb n) cols) possible_names with
  | Some n => Some n
  | None =>
      match cols with
      | c :: _ => Some c
      | [] => None
      end
  end.

Definition notna (v : value) : bool := negb (Frame.is_null v).

(** [self.weather_df[name].notna().any()] as an [if] condition: on a
    frame this is a [Series], which has no truth value. *)
Definition has_data (df : table) (name : string) : result bool :=
  match Frame.select df name with
  | [] => Raise (KeyError name)
  | [c] => Ok (existsb notna c)
  | _ => Raise ValueError
  end.

Fixpoint measurement_columns_of (df : table) (names : list string)
  : result (list string) :=
  match names with
  | [] => Ok []
  | measurement_type :: rest =>
      if Frame.has_column df measurement_type then
        b <- has_data df measurement_type ;;
        ms <- measurement_columns_of df rest ;;
        Ok (if b then measurement_type :: ms else ms)
      else measurement_columns_of df rest
  end.

Definition value_eqb (a b : value) : bool :=
  match a, b with
  | VNull, VNull => true
  | VNum p, VNum q => Qeq_bool p q
  | VText s, VText t => String.eqb s t
  | _, _ => false
  end.

(** Group keys in the order pandas prints them: numbers by value, then
    text by character codes. *)
Definition value_leb (a b : value) : bool :=
  match a, b with
  | VNull, _ => true
  | VNum _, VNull => false
  | VNum p, VNum q => Qle_bool p q
  | VNum _, VText _ => true
  | VText s, VText t => String.leb s t
  | VText _, _ => false
  end.

Fixpoint insert_key (k : value) (l : list value) : list value :=
  match l with
  | [] => [k]
  | x :: l' =>
      if value_eqb k x then l
      else if value_leb k x then k :: l
      else x :: insert_key k l'
  end.

(** The distinct non-null keys, sorted: rows with a null key belong to
    no group. *)
Definition group_keys (station : column) : list value :=
  fold_right (fun v acc => if Frame.is_null v then acc else insert_key v acc)
             [] station.

(** The cells of [c] on the rows whose key is [k]. *)
Definition group_cells (station c : column) (k : value) : column :=
  map snd (filter (fun p => value_eqb (fst p) k) (combine station c)).

Fixpoint numbers (c : column) : list Q :=
  match c with
  | [] => []
  | VNum q :: c' => q :: numbers c'
  | _ :: c' => numbers c'
  end.

Definition Qsum (l : list Q) : Q := fold_right Qplus 0%Q l.

(** [mean()] of the cells of one group: nulls are skipped, and a group
    without a number has a null mean.  Text cannot be averaged.  The
    mean is the exact rational one; [Means] has the same functions with
    the rounded mean of pandas in its place. *)
Definition mean_cell (cells : column) : result value :=
  if Frame.is_object cells then Raise TypeError
  else
    match numbers cells with
    | [] => Ok VNull
    | qs => Ok (VNum (Qred (Qsum qs / inject_Z (Z.of_nat (length qs)))))
    end.

Definition mean_column (station c : column) (keys : list value)
  : result column :=
  if Frame.is_object c then Raise TypeError
  else map_result (fun k => mean_cell (group_cells station c k)) keys.

(** [self.weather_df.groupby(station_column)[measurement_columns].mean()] *)
Definition groupby_mean (df : table) (station_column : string)
    (measurement_columns : list string) : result aggregate :=
  match Frame.select df station_column with
  | [] => Raise (KeyError station_column)
  | [station] =>
      let keys := group_keys station in
      cols <- map_result
                (fun name =>
                   match Frame.select df name with
                   | [] => Raise (KeyError name)
                   | [c] => mc <- mean_column station c keys ;; Ok (name, mc)
                   | _ => Raise ValueError
                   end) measurement_columns ;;
      Ok {| agg_by := station_column; agg_index := keys; agg_columns := cols |}
  | _ => Raise ValueError
  end.

(** The body of the [try] in [calculate_means]: [Raise] is an exception
    on its way to the [except] clause, [Ok None] one of the early
    [return]s, [Ok (Some a)] the assignment to [weather_df_mean]. *)
Definition calculate_means_body (patterns : dict Regex.regex) (df : table)
  : result (option aggregate) :=
  let station_column := station_column_of (Frame.columns df) in
  measurement_columns <- measurement_columns_of df (Dict.keys patterns) ;;
  match measurement_columns with
  | [] => Ok None
  | _ =>
      match station_column with
      | Some sc =>
          if negb (String.eqb sc "") && Frame.has_column df sc then
            a <- groupby_mean df sc measurement_columns ;;
            Ok (Some a)
          else Ok None
      | None => Ok None
      end
  end.

(** [calculate_means]: the [except Exception] clause logs and returns,
    so whatever the body raises, the method itself ends normally. *)
Definition calculate_means (st : state) : result state :=
  match weather_df st with
  | None => Ok st
  | Some df =>
      match calculate_means_body (regex_patterns st) df with
      | Ok (Some a) => Ok (set_weather_df_mean st a)
      | Ok None => Ok st
      | Raise _ => Ok st
      end
  end.

(** [process]: the value returned ([self.weather_df]) with the final
    state, or the exception that leaves the method.  The outer [except]
    logs and raises again; the inner one, around [calculate_means], logs
    and goes on. *)
Definition process (csv : result table) (st : state)
  : result (option table * state) :=
  st1 <- weather_station_mapping csv st ;;
  st2 <- process_messages st1 ;;
  let st3 :=
    match calculate_means st2 with
    | Ok st' => st'
    | Raise _ => st2
    end in
  Ok (weather_df st3, st3).

End WeatherDataProcessor.

Module ScenarioB.
Import WeatherDataProcessor.

Definition message : string := "Rainfall: 9mm, Temperature: 22C".

Definition compile_all (ps : dict string) : option (dict Regex.regex) :=
  fold_right
    (fun p acc =>
       match Regex.compile (snd p), acc with
       | Some r, Some d => Some ((fst p, r) :: d)
       | _, _ => None
       end) (Some []) ps.

(** The patterns as the specification writes them. *)
Definition spec_patterns : dict string :=
  [ ("Rainfall", "\d+(\.\d+)?\s?mm");
    ("Temperature", "\d+(\.\d+)?\s?C") ].

(** The patterns as [main] configures them. *)
Definition main_patterns : dict string :=
  [ ("Rainfall", "(\d+(\.\d+)?)\s?mm");
    ("Temperature", "(\d+(\.\d+)?)\s?C");
    ("Pollution_level", "=\s*(-?\d+(\.\d+)?)|Pollution at \s*(-?\d+(\.\d+)?)") ].

Definition compiled (ps : dict string) : dict Regex.regex :=
  match compile_all ps with
  | Some d => d
  | None => []
  end.

Definition weather : table :=
  [ ("Weather_station_ID", [VNum 0]); ("Message", [VText message]) ].

Definition start (ps : dict Regex.regex) : state :=
  {| regex_patterns := ps; weather_df := None; weather_df_mean := None |}.

End ScenarioB.


Module ScenarioC.
Import WeatherDataProcessor.

(** Four readings of two stations; only rainfall is ever reported. *)
Definition readings : table :=
  [ ("Station", [VText "A"; VText "A"; VText "A"; VText "B"]);
    ("Message", [VText "Rainfall: 10mm"; VText "sensor offline";
                 VText "Rainfall: 20 mm"; VText "sensor offline"]) ].

(** The same table after [process_messages] with the patterns of [main]. *)
Definition extracted : table :=
  (readings ++
   [ ("Rainfall", [VNum 10; VNull; VNum 20; VNull]);
     ("Temperature", [VNull; VNull; VNull; VNull]);
     ("Pollution_level", [VNull; VNull; VNull; VNull]) ])%list.

Definition expected_means : aggregate :=
  {| agg_by := "Station";
     agg_index := [VText "A"; VText "B"];
     agg_columns := [("Rainfall", [VNum 15; VNull])] |}.

(** A table whose station label is carried by two columns. *)
Definition twin_stations : table :=
  [ ("Station", [VText "A"]); ("Station", [VText "B"]);
    ("Message", [VText "Rainfall: 10mm"]) ].

End ScenarioC.

(** Patterns whose captured text passes the guard of
    [extract_measurement] without being a number. *)
Module Slip.

Definition version_pattern : string := "v(\d+\.\d+\.\d+) build (\d+)".
Definition version_message : string := "v1.2.3 build 7".

Definition date_pattern : string := "(\d+-\d+-\d+)".
Definition date_message : string := "Reading on 2025-10-01".

End Slip.

(** ** Shape of a table, and [drop] *)

Module Shape.

(** [len(df)]: the number of rows, read off the first column. *)
Definition n_rows (T : table) : nat :=
  match T with
  | [] => 0
  | (_, c) :: _ => length c
  end.

(** [df.empty]: no column, or no row. *)
Definition empty (T : table) : bool :=
  match T with
  | [] => true
  | _ => Nat.eqb (n_rows T) 0
  end.

(** Every column has [n] cells. *)
Definition rectangular (n : nat) (T : table) : Prop :=
  Forall (fun p => length (snd p) = n) T.

(** [df.drop(columns=name)], for a label the table has. *)
Definition drop (T : table) (name : string) : table :=
  filter (fun p => negb (String.eqb (fst p) name)) T.

End Shape.

(** ** [data_ingestion.py]

    The calls into SQLAlchemy and pandas are outside the program: each
    function takes what its call gives, a value or the exception it
    raises.  Every [except] clause of the module logs and raises the same
    exception again. *)

Module DataIngestion.

(** What [create_engine] followed by a test connection gives. *)
Definition create_db_engine (connect : result unit) : result unit := connect.

(** [query_data]: an empty frame is turned into a [ValueError]. *)
Definition query_data (read_sql : result table) : result table :=
  df <- read_sql ;;
  if Shape.empty df then Raise ValueError else Ok df.

Definition read_from_web_CSV (read_csv : result table) : result table := read_csv.

End DataIngestion.

(** ** [initialize_logging]

    [logging.getLogger(name)] hands out one logger object per name, so
    every processor of a class works on the same logger: the method is a
    transformation of that shared object. *)

Module Logging.

Inductive level : Type := NOTSET | DEBUG | INFO.

Record logger : Type := {
  propagate : bool;
  disabled : bool;
  log_level : level;
  handlers : list string        (* the format of each handler *)
}.

(** A logger as [getLogger] first creates it. *)
Definition fresh : logger :=
  {| propagate := true; disabled := false; log_level := NOTSET; handlers := [] |}.

Definition is_lower (c : ascii) : bool :=
  let n := nat_of_ascii c in (97 <=? n)%nat && (n <=? 122)%nat.

Definition upper_char (c : ascii) : ascii :=
  if is_lower c then ascii_of_nat (nat_of_ascii c - 32) else c.

(** [str.upper], on ASCII letters. *)
Definition upper (s : string) : string :=
  string_of_list_ascii (map upper_char (list_ascii_of_string s)).

Definition format : string :=
  "%(asctime)s - %(name)s - %(levelname)s - %(message)s".

Definition initialize_logging (logging_level : string) (lg : logger) : logger :=
  let lg1 := {| propagate := false; disabled := disabled lg;
                log_level := log_level lg; handlers := handlers lg |} in
  let set_up (l : level) :=
    {| propagate := false; disabled := disabled lg1; log_level := l;
       handlers := match handlers lg1 with
                   | [] => [format]
                   | hs => hs
                   end |} in
  if String.eqb (upper logging_level) "DEBUG" then set_up DEBUG
  else if String.eqb (upper logging_level) "INFO" then set_up INFO
  else if String.eqb (upper logging_level) "NONE" then
    {| propagate := false; disabled := true;
       log_level := log_level lg1; handlers := handlers lg1 |}
  else set_up INFO.

(** The logger after one processor per entry of [levels] was built. *)
Definition after_all (levels : list string) (lg : logger) : logger :=
  fold_left (fun l lvl => initialize_logging lvl l) levels lg.

End Logging.

(** ** [FieldDataProcessor.process] *)

Module FieldPipeline.
Import FieldDataProcessor.

(** What the outside gives to one run: the engine, the query result, the
    station mapping, and pandas' [merge] on [Field_ID], which is left
    abstract. *)
Record world : Type := {
  connect : result unit;
  read_sql : result table;
  read_csv : result table;
  merge_left : table -> table -> result table
}.

Definition ingest_sql_data (w : world) : result table :=
  _ <- DataIngestion.create_db_engine (connect w) ;;
  DataIngestion.query_data (read_sql w).

Definition weather_station_mapping (w : world) : result table :=
  DataIngestion.read_from_web_CSV (read_csv w).

(** [process]: the [except] clause logs and raises again. *)
Definition process (cfg : config) (w : world) : result table :=
  df <- ingest_sql_data w ;;
  df1 <- rename_columns cfg df ;;
  df2 <- apply_corrections cfg df1 "Crop_type" "Elevation" ;;
  weather_df <- weather_station_mapping w ;;
  df3 <- merge_left w df2 weather_df ;;
  Ok (if Frame.has_column df3 "Unnamed: 0"
      then Shape.drop df3 "Unnamed: 0"
      else df3).

End FieldPipeline.

(** ** Reference functions for the statements *)

Module Reference.

(** [abs] on a cell of a float column. *)
Definition abs_value (v : value) : value :=
  match v with
  | VNum q => VNum (Qabs q)
  | _ => v
  end.

(** The function [abs_step] runs over the labelled columns. *)
Definition abs_pair (ac : string) (p : string * column) : result (string * column) :=
  if String.eqb (fst p) ac
  then c <- map_result FieldDataProcessor.abs_cell (snd p) ;; Ok (fst p, c)
  else Ok p.

(** The names the buffer-name loop tries, in order: the base name with
    [k] underscores appended. *)
Fixpoint underscores (k : nat) : string :=
  match k with
  | O => ""
  | S k' => "_" ++ underscores k'
  end.

Definition candidate (k : nat) : string :=
  "__temp_name_for_swap__" ++ underscores k.

(** A cell of a repaired elevation column: null, or a number that is not
    negative. *)
Definition repaired (v : value) : Prop :=
  v = VNull \/ exists q, v = VNum q /\ (0 <= q)%Q.

End Reference.

(** ** What a pattern can match *)

Module RegexSem.
Import Regex.

(** The texts a pattern matches as a whole. *)
Fixpoint lang (r : regex) (t : list ascii) : Prop :=
  match r with
  | Empty => t = []
  | Atom a => exists x, t = [x] /\ atom_matches a x = true
  | Seq r1 r2 => exists t1 t2, t = (t1 ++ t2)%list /\ lang r1 t1 /\ lang r2 t2
  | Alt r1 r2 => lang r1 t \/ lang r2 t
  | Star r1 => exists ts, t = concat ts /\ Forall (lang r1) ts
  | Plus r1 =>
      exists t1 ts, t = (t1 ++ concat ts)%list /\ lang r1 t1 /\ Forall (lang r1) ts
  | Opt r1 => t = [] \/ lang r1 t
  | Group _ r1 => lang r1 t
  end.

(** Every group of [r] can only capture texts that [P] accepts for it. *)
Fixpoint groups_ok (P : nat -> list ascii -> Prop) (r : regex) : Prop :=
  match r with
  | Empty | Atom _ => True
  | Seq r1 r2 | Alt r1 r2 => groups_ok P r1 /\ groups_ok P r2
  | Star r1 | Plus r1 | Opt r1 => groups_ok P r1
  | Group n r1 => (forall t, lang r1 t -> P n t) /\ groups_ok P r1
  end.

Definition caps_ok (P : nat -> list ascii -> Prop) (c : caps) : Prop :=
  forall n t, lookup c n = Some t -> P n t.

(** What is proved of each pattern: a successful run has consumed a text
    of the pattern's language, handed the rest to its continuation, and
    kept every capture acceptable. *)
Definition sound_step (P : nat -> list ascii -> Prop) (L : list ascii -> Prop)
    (step : list ascii -> caps -> cont -> option caps) : Prop :=
  forall s c k c',
    caps_ok P c ->
    step s c k = Some c' ->
    exists pre s1 c1,
      s = (pre ++ s1)%list /\ L pre /\ caps_ok P c1 /\ k s1 c1 = Some c'.

End RegexSem.

(** ** The shapes of text the patterns of [main] capture *)

Module Shapes.

Definition digits (t : list ascii) : Prop :=
  t <> [] /\ forallb Text.is_digit t = true.

(** A text without a blank: [strip] leaves it as it is. *)
Definition solid (t : list ascii) : Prop :=
  forall c, In c t -> Text.is_space c = false.

(** [\d+(\.\d+)?] *)
Definition unsigned_decimal (t : list ascii) : Prop :=
  exists ip, digits ip /\
             (t = ip \/ exists fp, digits fp /\ t = (ip ++ "."%char :: fp)%list).

(** [\.\d+] *)
Definition fraction (t : list ascii) : Prop :=
  exists fp, digits fp /\ t = "."%char :: fp.

(** [-?\d+(\.\d+)?] *)
Definition signed_decimal (t : list ascii) : Prop :=
  unsigned_decimal t \/ exists u, unsigned_decimal u /\ t = "-"%char :: u.

(** Groups of the Rainfall and Temperature patterns. *)
Definition unsigned_groups (n : nat) (t : list ascii) : Prop :=
  match n with
  | 1%nat => unsigned_decimal t
  | _ => fraction t
  end.

(** Groups of the Pollution_level pattern. *)
Definition signed_groups (n : nat) (t : list ascii) : Prop :=
  match n with
  | 1%nat | 3%nat => signed_decimal t
  | _ => fraction t
  end.

End Shapes.

(** ** The patterns of [main], as syntax *)

Module MainPatterns.
Import Regex.

Definition digits1 : regex := Plus (Atom ADigit).

(** [(\.\d+)] as group [m] *)
Definition fraction_group (m : nat) : regex :=
  Group m (Seq (Atom (ALit ".")) digits1).

(** [(\d+(\.\d+)?)] as groups [n] and [m] *)
Definition number (n m : nat) : regex :=
  Group n (Seq digits1 (Opt (fraction_group m))).

(** [(-?\d+(\.\d+)?)] as groups [n] and [m] *)
Definition signed_number (n m : nat) : regex :=
  Group n (Seq (Opt (Atom (ALit "-"))) (Seq digits1 (Opt (fraction_group m)))).

(** The characters of [s], then [k]. *)
Definition literal (s : string) (k : regex) : regex :=
  fold_right (fun c r => Seq (Atom (ALit c)) r) k (list_ascii_of_string s).

Definition rainfall : regex :=
  Seq (number 1 2) (Seq (Opt (Atom ASpace)) (literal "m" (Atom (ALit "m")))).

Definition temperature : regex :=
  Seq (number 1 2) (Seq (Opt (Atom ASpace)) (Atom (ALit "C"))).

Definition pollution_level : regex :=
  Alt (literal "=" (Seq (Star (Atom ASpace)) (signed_number 1 2)))
      (literal "Pollution at " (Seq (Star (Atom ASpace)) (signed_number 3 4))).

Definition patterns : dict regex :=
  [ ("Rainfall", rainfall); ("Temperature", temperature);
    ("Pollution_level", pollution_level) ].

End MainPatterns.

(** ** What the cells tell about a column's dtype *)

Module Dtype.

Definition is_number (v : value) : bool :=
  match v with VNum _ => true | _ => false end.

(** A column that pandas stores with a numeric dtype: no text, and at
    least one number.  A column of nulls only is left out on purpose: the
    database driver makes it an [object] column of [None], on which [abs]
    raises and [.str] exists, and its cells cannot tell it from a
    [float64] column of NaN, where it is the other way round. *)
Definition numeric (c : column) : bool :=
  negb (Frame.is_object c) && existsb is_number c.

(** The least [int64], the one value [abs] cannot repair on an integer
    column: it wraps around and stays negative. *)
Definition int64_min : Q := inject_Z (- 2 ^ 63).

Definition wraps (v : value) : bool :=
  match v with
  | VNum q => Qeq_bool q int64_min
  | _ => false
  end.

Definition int64_safe (c : column) : bool := negb (existsb wraps c).

End Dtype.

(** ** Rationals that binary64 arithmetic handles without rounding *)

Module Binary64.





End Binary64.

(** ** [calculate_means], with the mean of pandas left to pandas

    [groupby(...)[...].mean()] averages in binary64.  What it returns for
    the numbers of one group is a rounded value that depends on the order
    of the additions, so the aggregation is stated over any operation
    [mean] taking the non-null numbers of a group, in row order, to the
    cell pandas stores.  The functions of [WeatherDataProcessor] are the
    ones below at the exact rational mean. *)

Module Means.
Import WeatherDataProcessor.

Definition arithmetic_mean (qs : list Q) : Q :=
  Qred (Qsum qs / inject_Z (Z.of_nat (length qs))).

Definition exact (qs : list Q) : value := VNum (arithmetic_mean qs).

Section Library.

Variable mean : list Q -> value.

(** [mean()] of the cells of one group: nulls are skipped, and a group
    without a number has a null mean.  Text cannot be averaged. *)
Definition mean_cell (cells : column) : result value :=
  if Frame.is_object cells then Raise TypeError
  else
    match numbers cells with
    | [] => Ok VNull
    | qs => Ok (mean qs)
    end.

Definition mean_column (station c : column) (keys : list value)
  : result column :=
  if Frame.is_object c then Raise TypeError
  else map_result (fun k => mean_cell (group_cells station c k)) keys.

(** [self.weather_df.groupby(station_column)[measurement_columns].mean()] *)
Definition groupby_mean (df : table) (station_column : string)
    (measurement_columns : list string) : result aggregate :=
  match Frame.select df station_column with
  | [] => Raise (KeyError station_column)
  | [station] =>
      let keys := group_keys station in
      cols <- map_result
                (fun name =>
                   match Frame.select df name with
                   | [] => Raise (KeyError name)
                   | [c] => mc <- mean_column station c keys ;; Ok (name, mc)
                   | _ => Raise ValueError
                   end) measurement_columns ;;
      Ok {| agg_by := station_column; agg_index := keys; agg_columns := cols |}
  | _ => Raise ValueError
  end.

(** The body of the [try] in [calculate_means], lines 169-209. *)
Definition calculate_means_body (patterns : dict Regex.regex) (df : table)
  : result (option aggregate) :=
  let station_column := station_column_of (Frame.columns df) in
  measurement_columns <- measurement_columns_of df (Dict.keys patterns) ;;
  match measurement_columns with
  | [] => Ok None
  | _ =>
      match station_column with
      | Some sc =>
          if negb (String.eqb sc "") && Frame.has_column df sc then
            a <- groupby_mean df sc measurement_columns ;;
            Ok (Some a)
          else Ok None
      | None => Ok None
      end
  end.

(** [calculate_means], lines 158-214: the [except Exception] clause logs
    and returns, so whatever the body raises, the method ends normally
    and leaves [weather_df_mean] as it was. *)
Definition calculate_means (st : state) : result state :=
  match weather_df st with
  | None => Ok st
  | Some df =>
      match calculate_means_body (regex_patterns st) df with
      | Ok (Some a) => Ok (set_weather_df_mean st a)
      | Ok None => Ok st
      | Raise _ => Ok st
      end
  end.

End Library.

End Means.

(** ** Cells of a corrected table, against the cells they replace *)

Module InPlace.

(** A yield cell after [pd.to_numeric(..., errors='coerce')]: numbers and
    nulls stay; text becomes a number or a null, and the number it spells
    when it is a plain decimal of moderate length, [-?\d+(\.\d+)?]. *)
Definition yield_cell (v v' : value) : Prop :=
  match v with
  | VNull => v' = VNull
  | VNum q => v' = VNum q
  | VText s =>
      Frame.is_text v' = false /\
      (Shapes.signed_decimal (list_ascii_of_string s) ->
       (String.length s <= 300)%nat ->
       exists q, Text.parse_decimal s = Some q /\ v' = VNum q)
  end.

(** An elevation cell after [abs()]: a null stays, a number loses its
    sign (the least [int64] apart). *)
Definition elevation_cell (v v' : value) : Prop :=
  match v with
  | VNull => v' = VNull
  | VNum q => Dtype.wraps v = false -> v' = VNum (Qabs q)
  | VText _ => False
  end.

(** A crop cell after the [.str] methods and the lookup: text stays
    text, anything else comes out null. *)
Definition crop_cell (v v' : value) : Prop :=
  match v with
  | VText _ => Frame.is_text v' = true
  | _ => v' = VNull
  end.

(** A column of the corrected table, by its label, against the column
    that was at the same position. *)
Definition corrected (label : string) (c c' : column) : Prop :=
  if String.eqb label "Annual_yield" then Forall2 yield_cell c c'
  else if String.eqb label "Elevation" then Forall2 elevation_cell c c'
  else if String.eqb label "Crop_type" then Forall2 crop_cell c c'
  else c' = c.

(** Text made of ASCII characters only, where the character classes of
    the model are Python's. *)
Definition ascii_text (v : value) : bool :=
  match v with
  | VText s =>
      forallb (fun ch => (nat_of_ascii ch <? 128)%nat) (list_ascii_of_string s)
  | _ => true
  end.

End InPlace.

(** * Properties *)

Open Scope list_scope.

(** ** Text *)

Module TextFacts.
Import Text.

Lemma lower_char_not_upper (c : ascii) : is_upper (lower_char c) = false.
Proof.
  destruct c as [b0 b1 b2 b3 b4 b5 b6 b7];
    destruct b0, b1, b2, b3, b4, b5, b6, b7; reflexivity.
Qed.

Lemma lower_char_idem (c : ascii) : lower_char (lower_char c) = lower_char c.
Proof.
  unfold lower_char at 1. now rewrite lower_char_not_upper.
Qed.

Lemma is_space_lower_char (c : ascii) : is_space (lower_char c) = is_space c.
Proof.
  destruct c as [b0 b1 b2 b3 b4 b5 b6 b7];
    destruct b0, b1, b2, b3, b4, b5, b6, b7; reflexivity.
Qed.

Lemma lower_chars_idem (l : list ascii) : lower_chars (lower_chars l) = lower_chars l.
Proof.
  unfold lower_chars. rewrite map_map. apply map_ext. apply lower_char_idem.
Qed.

Lemma lstrip_lower (l : list ascii) :
  lstrip (lower_chars l) = lower_chars (lstrip l).
Proof.
  induction l as [|c l IH]; simpl; [reflexivity|].
  rewrite is_space_lower_char. destruct (is_space c); [exact IH | reflexivity].
Qed.

Lemma rstrip_lower (l : list ascii) :
  rstrip (lower_chars l) = lower_chars (rstrip l).
Proof.
  unfold rstrip, lower_chars.
  rewrite <- map_rev. fold (lower_chars (rev l)). rewrite lstrip_lower.
  unfold lower_chars. now rewrite map_rev.
Qed.

Lemma strip_lower (l : list ascii) :
  strip_chars (lower_chars l) = lower_chars (strip_chars l).
Proof.
  unfold strip_chars. now rewrite lstrip_lower, rstrip_lower.
Qed.

Lemma lstrip_idem (l : list ascii) : lstrip (lstrip l) = lstrip l.
Proof.
  induction l as [|c l IH]; simpl; [reflexivity|].
  destruct (is_space c) eqn:E; [exact IH | simpl; now rewrite E].
Qed.

(** A text that starts with a non-blank keeps its head under [rstrip]. *)
Lemma lstrip_app_solid (l : list ascii) (x : ascii) :
  is_space x = false -> lstrip (l ++ [x]) = lstrip l ++ [x].
Proof.
  intros Hx. induction l as [|c l IH]; simpl.
  - now rewrite Hx.
  - destruct (is_space c); [exact IH | reflexivity].
Qed.

Lemma rstrip_cons_solid (x : ascii) (l : list ascii) :
  is_space x = false -> rstrip (x :: l) = x :: rstrip l.
Proof.
  intros Hx. unfold rstrip. simpl.
  rewrite lstrip_app_solid by exact Hx.
  rewrite rev_app_distr. reflexivity.
Qed.

Lemma lstrip_head (l : list ascii) :
  lstrip l = [] \/ exists x l', lstrip l = x :: l' /\ is_space x = false.
Proof.
  induction l as [|c l IH]; simpl; [now left|].
  destruct (is_space c) eqn:E; [exact IH|].
  right. now exists c, l.
Qed.

Lemma rstrip_idem (l : list ascii) : rstrip (rstrip l) = rstrip l.
Proof.
  unfold rstrip. rewrite rev_involutive. now rewrite lstrip_idem.
Qed.

Lemma strip_chars_idem (l : list ascii) :
  strip_chars (strip_chars l) = strip_chars l.
Proof.
  unfold strip_chars.
  destruct (lstrip_head l) as [E | (x & l' & E & Hx)]; rewrite E.
  - reflexivity.
  - rewrite rstrip_cons_solid by exact Hx. simpl. rewrite Hx.
    rewrite <- rstrip_cons_solid by exact Hx. apply rstrip_idem.
Qed.

Lemma strip_idem (s : string) : strip (strip s) = strip s.
Proof.
  unfold strip. rewrite list_ascii_of_string_of_list_ascii.
  now rewrite strip_chars_idem.
Qed.

Lemma lower_idem (s : string) : lower (lower s) = lower s.
Proof.
  unfold lower. rewrite list_ascii_of_string_of_list_ascii.
  now rewrite lower_chars_idem.
Qed.

Lemma strip_lower_comm (s : string) : strip (lower s) = lower (strip s).
Proof.
  unfold strip, lower. rewrite !list_ascii_of_string_of_list_ascii.
  now rewrite strip_lower.
Qed.

End TextFacts.

(** ** Result monad and tables *)

Module FrameFacts.
Import Frame.

Lemma existsb_eqb_In (n : string) (l : list string) :
  existsb (String.eqb n) l = true <-> In n l.
Proof.
  rewrite existsb_exists. split.
  - intros (x & Hx & E). apply String.eqb_eq in E. now subst.
  - intros H. exists n. split; [exact H | apply String.eqb_refl].
Qed.

Lemma existsb_eqb_not_In (n : string) (l : list string) :
  existsb (String.eqb n) l = false <-> ~ In n l.
Proof.
  rewrite <- existsb_eqb_In. destruct (existsb (String.eqb n) l); split;
    intros; congruence.
Qed.

Lemma has_column_In (T : table) (n : string) :
  has_column T n = true <-> In n (columns T).
Proof. apply existsb_eqb_In. Qed.

Lemma select_nil (T : table) (n : string) :
  select T n = [] <-> has_column T n = false.
Proof.
  unfold select, has_column, columns.
  induction T as [|[k c] T IH]; simpl; [tauto|].
  rewrite (String.eqb_sym n k).
  destruct (String.eqb k n); simpl; [split; discriminate | exact IH].
Qed.

Lemma select_update (T : table) (n : string) (f : column -> column) :
  select (update T n f) n = map f (select T n).
Proof.
  unfold select, update.
  induction T as [|[k c] T IH]; simpl; [reflexivity|].
  destruct (String.eqb k n) eqn:E; simpl; rewrite E; simpl; now rewrite IH.
Qed.

Lemma select_update_other (T : table) (n n' : string) (f : column -> column) :
  n' <> n -> select (update T n f) n' = select T n'.
Proof.
  intros Hn. unfold select, update.
  induction T as [|[k c] T IH]; simpl; [reflexivity|].
  destruct (String.eqb k n) eqn:E; simpl.
  - apply String.eqb_eq in E. subst k.
    apply String.eqb_neq in Hn. rewrite String.eqb_sym, Hn. exact IH.
  - destruct (String.eqb k n'); simpl; now rewrite IH.
Qed.

Lemma columns_update (T : table) (n : string) (f : column -> column) :
  columns (update T n f) = columns T.
Proof.
  unfold columns, update. rewrite map_map. apply map_ext.
  intros [k c]. simpl. now destruct (String.eqb k n).
Qed.

(** Assigning to a label that one column carries replaces that column. *)
Lemma select_assign_single (T : table) (n : string) (c c' : column) :
  select T n = [c] -> select (assign T n c') n = [c'].
Proof.
  intros H. unfold assign.
  destruct (has_column T n) eqn:E.
  - now rewrite select_update, H.
  - apply select_nil in E. congruence.
Qed.

Lemma columns_assign_present (T : table) (n : string) (c : column) :
  has_column T n = true -> columns (assign T n c) = columns T.
Proof.
  intros H. unfold assign. rewrite H. apply columns_update.
Qed.

End FrameFacts.

(** ** The field corrector *)

Module FieldFacts.
Import Frame FieldDataProcessor FrameFacts.

(** *** Vocabulary repair *)

Lemma normalize_idem (t : string) : normalize (normalize t) = normalize t.
Proof.
  unfold normalize.
  rewrite TextFacts.strip_lower_comm, TextFacts.strip_idem.
  apply TextFacts.lower_idem.
Qed.

Lemma is_object_map_text (f : string -> string) (c : column) :
  is_object (map (fun v => match v with
                           | VText s => VText (f s)
                           | _ => VNull
                           end) c) = is_object c.
Proof.
  unfold is_object. induction c as [|v c IH]; simpl; [reflexivity|].
  rewrite IH. now destruct v.
Qed.

Lemma correct_column_object (m : dict string) (c : column) :
  is_object c = true -> correct_column m c = Ok (map (step_cell m) c).
Proof.
  intros H. unfold correct_column, str_method. rewrite H. simpl.
  rewrite is_object_map_text, H. simpl. f_equal.
  rewrite !map_map. apply map_ext. intros [| q | s]; simpl; try reflexivity.
  unfold correct_token, normalize. now destruct (Dict.get m _).
Qed.

Lemma correct_column_float (m : dict string) (c : column) :
  is_object c = false -> correct_column m c = Raise AttributeError.
Proof.
  intros H. unfold correct_column, str_method. now rewrite H.
Qed.

Lemma is_object_step (m : dict string) (c : column) :
  is_object (map (step_cell m) c) = is_object c.
Proof. apply is_object_map_text. Qed.

Section FixedTargets.

Variable m : dict string.
Hypothesis targets_fixed :
  forall k t, Dict.get m k = Some t -> correct_token m t = t.

Lemma correct_token_idem (s : string) :
  correct_token m (correct_token m s) = correct_token m s.
Proof.
  remember (correct_token m s) as u eqn:Hu.
  unfold correct_token in Hu.
  destruct (Dict.get m (normalize s)) as [t|] eqn:E; subst u.
  - exact (targets_fixed _ _ E).
  - unfold correct_token. now rewrite normalize_idem, E.
Qed.

Lemma step_cell_idem (v : value) : step_cell m (step_cell m v) = step_cell m v.
Proof.
  destruct v; simpl; try reflexivity. now rewrite correct_token_idem.
Qed.

Lemma correct_column_idem (c c1 : column) :
  correct_column m c = Ok c1 -> correct_column m c1 = Ok c1.
Proof.
  intros H. destruct (is_object c) eqn:E.
  - rewrite correct_column_object in H by exact E. injection H as <-.
    rewrite correct_column_object by now rewrite is_object_step.
    f_equal. rewrite map_map. apply map_ext. apply step_cell_idem.
  - rewrite correct_column_float in H by exact E. discriminate.
Qed.

End FixedTargets.

(** The crop step of [apply_corrections] is [correct_column] on the one
    column under the label. *)
Lemma crop_step_column (cfg : config) (df : table) (name : string) (c : column) :
  select df name = [c] ->
  crop_step cfg df name =
  (c' <- correct_column (values_to_rename cfg) c ;;
   Ok (assign df name c')).
Proof.
  intros H. unfold crop_step, series, correct_column. rewrite H. simpl.
  destruct (str_method Text.strip c) as [c1|e]; simpl; [|reflexivity].
  destruct (str_method Text.lower c1) as [c2|e]; simpl; [|reflexivity].
  rewrite (select_assign_single _ _ _ c2 H). simpl. f_equal.
  assert (Hc : has_column df name = true).
  { destruct (has_column df name) eqn:E; [reflexivity|].
    apply select_nil in E. congruence. }
  assert (Hc' : has_column (assign df name c2) name = true).
  { unfold has_column. rewrite columns_assign_present by exact Hc. exact Hc. }
  unfold assign at 1. rewrite Hc'. unfold assign. rewrite Hc.
  unfold update. rewrite map_map. apply map_ext.
  intros [k col]. simpl. destruct (String.eqb k name) eqn:E; simpl; now rewrite ?E.
Qed.

(** The hypothesis on the targets can be checked by running the
    correction on each of them. *)
Lemma targets_fixed_check (m : dict string) :
  forallb (fun p => String.eqb (correct_token m (snd p)) (snd p)) m = true ->
  forall k t, Dict.get m k = Some t -> correct_token m t = t.
Proof.
  intros H k t. revert H. generalize m at 2 3. intros d.
  induction d as [|[k' t'] d IH]; simpl; [discriminate|].
  intros H G. apply andb_prop in H as [H1 H2].
  destruct (String.eqb k' k).
  - injection G as <-. now apply String.eqb_eq.
  - now apply IH.
Qed.

(** C9: normalisation (trim, then lower-case) is idempotent, and when the
    targets of the correction map are fixed points of the correction, a
    crop-type column corrected once is left as it is by a second
    correction; on a text column the correction does return. *)
Theorem correction_idempotent (m : dict string)
    (targets_fixed : forall k t, Dict.get m k = Some t -> correct_token m t = t) :
  (forall t, normalize (normalize t) = normalize t) /\
  (forall c c1, correct_column m c = Ok c1 -> correct_column m c1 = Ok c1) /\
  (forall c, is_object c = true ->
             exists c1, correct_column m c = Ok c1 /\ correct_column m c1 = Ok c1).
Proof.
  split; [exact normalize_idem|]. split.
  - intros c c1. now apply correct_column_idem.
  - intros c Hc. exists (map (step_cell m) c).
    assert (H := correct_column_object m c Hc). split; [exact H|].
    now apply (correct_column_idem m targets_fixed c).
Qed.

Lemma correction_idempotent_witness :
  let m := [("cassaval", "cassava"); ("wheatn", "wheat"); ("teaa", "tea")] in
  (forall t, normalize (normalize t) = normalize t) /\
  (forall c c1, correct_column m c = Ok c1 -> correct_column m c1 = Ok c1) /\
  (forall c, is_object c = true ->
             exists c1, correct_column m c = Ok c1 /\ correct_column m c1 = Ok c1).
Proof.
  apply (correction_idempotent
           [("cassaval", "cassava"); ("wheatn", "wheat"); ("teaa", "tea")]).
  apply targets_fixed_check. reflexivity.
Defined.

(** Without fixed targets a second correction can change the column. *)
Example correction_chain_not_idempotent :
  let m := [("a", "b"); ("b", "c")] in
  correct_column m [VText "a"] = Ok [VText "b"] /\
  correct_column m [VText "b"] = Ok [VText "c"].
Proof. split; reflexivity. Qed.

End FieldFacts.

(** *** The column swap *)

Module SwapFacts.
Import Frame FieldDataProcessor FrameFacts.

Lemma string_length_append (s t : string) :
  String.length (s ++ t)%string = (String.length s + String.length t)%nat.
Proof. induction s as [|c s IH]; simpl; [reflexivity | now rewrite IH]. Qed.

Lemma filter_length_mono {A} (p q : A -> bool) (l : list A) :
  (forall x, p x = true -> q x = true) ->
  (length (filter p l) <= length (filter q l))%nat.
Proof.
  intros H. induction l as [|x l IH]; simpl; [lia|].
  destruct (p x) eqn:E.
  - rewrite (H x E). simpl. lia.
  - destruct (q x); simpl; lia.
Qed.

Lemma filter_length_strict {A} (p q : A -> bool) (l : list A) (x : A) :
  (forall y, p y = true -> q y = true) ->
  In x l -> p x = false -> q x = true ->
  (length (filter p l) < length (filter q l))%nat.
Proof.
  intros H Hin Hp Hq. induction l as [|y l IH]; simpl; [destruct Hin|].
  destruct Hin as [-> | Hin].
  - rewrite Hp, Hq. simpl. pose proof (filter_length_mono p q l H). lia.
  - specialize (IH Hin). destruct (p y) eqn:E.
    + rewrite (H y E). simpl. lia.
    + destruct (q y); simpl; lia.
Qed.

Lemma long_succ_lt (s : string) (cols : list string) :
  In s cols ->
  (length (long (S (String.length s)) cols) < length (long (String.length s) cols))%nat.
Proof.
  intros H. unfold long. apply (filter_length_strict _ _ cols s).
  - intros y Hy. apply Nat.leb_le in Hy. apply Nat.leb_le. lia.
  - exact H.
  - apply Nat.leb_gt. lia.
  - apply Nat.leb_refl.
Qed.

Lemma not_long_not_In (s : string) (cols : list string) :
  long (String.length s) cols = [] -> ~ In s cols.
Proof.
  intros H Hin. unfold long in H.
  assert (In s (filter (fun c => (String.length s <=? String.length c)%nat) cols)).
  { apply filter_In. split; [exact Hin | apply Nat.leb_refl]. }
  rewrite H in H0. exact H0.
Qed.

(** The loop ends on a name that is not a column, within the fuel. *)
Lemma temp_name_loop_fresh (n : nat) :
  forall s cols,
    (length (long (String.length s) cols) <= n)%nat ->
    ~ In (temp_name_loop n s cols) cols.
Proof.
  induction n as [|n IH]; intros s cols H; simpl.
  - apply not_long_not_In. destruct (long (String.length s) cols); [reflexivity|].
    simpl in H. lia.
  - destruct (existsb (String.eqb s) cols) eqn:E.
    + apply existsb_eqb_In in E. apply IH.
      rewrite string_length_append. simpl.
      replace (String.length s + 1)%nat with (S (String.length s)) by lia.
      pose proof (long_succ_lt s cols E). lia.
    + now apply existsb_eqb_not_In.
Qed.

Lemma temp_name_fresh (cols : list string) : ~ In (temp_name_for cols) cols.
Proof.
  apply temp_name_loop_fresh. unfold long. apply filter_length_le.
Qed.

(** More fuel changes nothing: the loop has stopped by itself. *)
Lemma temp_name_loop_stable (n : nat) :
  forall s cols k,
    (length (long (String.length s) cols) <= n)%nat ->
    temp_name_loop (n + k) s cols = temp_name_loop n s cols.
Proof.
  induction n as [|n IH]; intros s cols k H; simpl.
  - destruct k; simpl; [reflexivity|].
    replace (existsb (String.eqb s) cols) with false; [reflexivity|].
    symmetry. apply existsb_eqb_not_In. apply not_long_not_In.
    destruct (long (String.length s) cols); [reflexivity | simpl in H; lia].
  - destruct (existsb (String.eqb s) cols) eqn:E; [|reflexivity].
    apply existsb_eqb_In in E. apply IH.
    rewrite string_length_append. simpl.
    replace (String.length s + 1)%nat with (S (String.length s)) by lia.
    pose proof (long_succ_lt s cols E). lia.
Qed.

Lemma temp_name_loop_length (n : nat) :
  forall s cols, (String.length s <= String.length (temp_name_loop n s cols))%nat.
Proof.
  induction n as [|n IH]; intros s cols; simpl; [lia|].
  destruct (existsb (String.eqb s) cols); [|lia].
  specialize (IH (s ++ "_")%string cols).
  rewrite string_length_append in IH. lia.
Qed.

Lemma temp_name_long (cols : list string) :
  (22 <= String.length (temp_name_for cols))%nat.
Proof.
  unfold temp_name_for.
  exact (temp_name_loop_length _ "__temp_name_for_swap__" cols).
Qed.

Lemma exchange_involutive (a b n : string) : exchange a b (exchange a b n) = n.
Proof.
  unfold exchange.
  destruct (String.eqb_spec n a) as [->|Ha].
  - destruct (String.eqb_spec b a) as [->|Hb]; [reflexivity|].
    now rewrite String.eqb_refl.
  - destruct (String.eqb_spec n b) as [->|Hb].
    + now rewrite String.eqb_refl.
    + apply String.eqb_neq in Ha, Hb. now rewrite Ha, Hb.
Qed.

Lemma relabel_relabel (f g : string -> string) (df : table) :
  relabel g (relabel f df) = relabel (fun n => g (f n)) df.
Proof. unfold relabel. rewrite map_map. reflexivity. Qed.

Lemma relabel_id (f : string -> string) (df : table) :
  (forall n, f n = n) -> relabel f df = df.
Proof.
  intros H. unfold relabel. rewrite <- (map_id df) at 2. apply map_ext.
  intros [k c]. simpl. now rewrite H.
Qed.

Lemma columns_relabel (f : string -> string) (df : table) :
  columns (relabel f df) = map f (columns df).
Proof. unfold columns, relabel. now rewrite !map_map. Qed.

Lemma data_relabel (f : string -> string) (df : table) :
  map snd (relabel f df) = map snd df.
Proof. unfold relabel. now rewrite map_map. Qed.

Lemma select_relabel_exchange (a b n : string) (df : table) :
  select (relabel (exchange a b) df) n = select df (exchange a b n).
Proof.
  unfold select, relabel.
  induction df as [|[k c] df IH]; simpl; [reflexivity|].
  replace (String.eqb (exchange a b k) n) with (String.eqb k (exchange a b n)).
  - destruct (String.eqb k (exchange a b n)); simpl; now rewrite IH.
  - destruct (String.eqb_spec k (exchange a b n)) as [->|H].
    + rewrite exchange_involutive. symmetry. apply String.eqb_refl.
    + symmetry. apply String.eqb_neq. intros <-.
      now rewrite exchange_involutive in H.
Qed.

(** What the two [rename] calls do, when the buffer name is neither name
    of the pair. *)
Lemma swap_columns_relabel (cfg : config) (df : table) (a b : string) :
  Dict.first (Dict.keys (columns_to_rename cfg)) = Ok a ->
  Dict.first (Dict.values (columns_to_rename cfg)) = Ok b ->
  temp_name_for (columns df) <> a ->
  temp_name_for (columns df) <> b ->
  swap_columns cfg df = Ok (relabel (exchange a b) df).
Proof.
  intros Ha Hb Hta Htb. unfold swap_columns. rewrite Ha, Hb. simpl.
  f_equal. unfold rename, relabel. rewrite map_map.
  apply map_ext_in. intros [k c] Hin. simpl. f_equal.
  assert (Hk : k <> temp_name_for (columns df)).
  { intros ->. apply (temp_name_fresh (columns df)).
    unfold columns. apply in_map_iff. now exists (temp_name_for (map fst df), c). }
  revert Hta Htb Hk. generalize (temp_name_for (columns df)).
  intros t Hta Htb Hk. clear Hin Ha Hb.
  unfold exchange. simpl.
  destruct (String.eqb_spec a b); subst; simpl;
    destruct (String.eqb_spec b k); subst; simpl;
    try (destruct (String.eqb_spec a k); subst; simpl);
  repeat match goal with
         | |- context [String.eqb ?x ?y] =>
             destruct (String.eqb_spec x y); subst; simpl
         end; congruence.
Qed.

Lemma In_exchange (a b : string) (cols : list string) :
  In a cols -> In b cols ->
  In a (map (exchange a b) cols) /\ In b (map (exchange a b) cols).
Proof.
  intros Ha Hb. split; apply in_map_iff.
  - exists b. split; [|exact Hb]. unfold exchange.
    destruct (String.eqb_spec b a); [congruence|]. now rewrite String.eqb_refl.
  - exists a. split; [|exact Ha]. unfold exchange. now rewrite String.eqb_refl.
Qed.

End SwapFacts.

(** *** Claims on the field corrector *)

Module FieldClaims.
Import Frame FieldDataProcessor FrameFacts SwapFacts.

(** C1: on the survey row of scenario A, with the rename pair
    (Annual_yield, Crop_type) and the correction map cassaval -> cassava,
    the correction ends with Crop_type = "cassava", Annual_yield = 150.0
    and Elevation = 12.3. *)
Theorem scenario_A_corrected :
  exists df,
    correct ScenarioA.cfg ScenarioA.survey = Ok df /\
    cell df "Crop_type" 0 = Some (VText "cassava") /\
    cell df "Annual_yield" 0 = Some (VNum 150) /\
    cell df "Elevation" 0 = Some (VNum 12.3).
Proof.
  eexists. split; [vm_compute; reflexivity|].
  repeat split; reflexivity.
Qed.

(** C4: on a table that has both columns of the rename pair, the swap
    exchanges the two labels and keeps every column's data, the buffer
    name it goes through is not a column of the table, and swapping the
    result again gives the table back. *)
Theorem swap_columns_involution (cfg : config) (df : table) (a b : string) :
  Dict.first (Dict.keys (columns_to_rename cfg)) = Ok a ->
  Dict.first (Dict.values (columns_to_rename cfg)) = Ok b ->
  In a (columns df) -> In b (columns df) ->
  ~ In (temp_name_for (columns df)) (columns df) /\
  exists df',
    swap_columns cfg df = Ok df' /\
    map snd df' = map snd df /\
    (forall n, select df' n = select df (exchange a b n)) /\
    swap_columns cfg df' = Ok df.
Proof.
  intros Ha Hb Ia Ib.
  pose proof (temp_name_fresh (columns df)) as Hf.
  split; [exact Hf|].
  exists (relabel (exchange a b) df).
  assert (H1 : swap_columns cfg df = Ok (relabel (exchange a b) df)).
  { apply swap_columns_relabel; try assumption; intros E; apply Hf;
      rewrite E; assumption. }
  split; [exact H1|]. split; [apply data_relabel|].
  split; [intros n; apply select_relabel_exchange|].
  pose proof (temp_name_fresh (columns (relabel (exchange a b) df))) as Hf'.
  destruct (In_exchange a b (columns df) Ia Ib) as [Ia' Ib'].
  rewrite <- columns_relabel in Ia', Ib'.
  rewrite (swap_columns_relabel cfg _ a b Ha Hb).
  - rewrite relabel_relabel. f_equal. apply relabel_id.
    apply exchange_involutive.
  - intros E. apply Hf'. rewrite E. exact Ia'.
  - intros E. apply Hf'. rewrite E. exact Ib'.
Qed.

Lemma swap_columns_involution_witness :
  ~ In (temp_name_for (columns ScenarioA.survey)) (columns ScenarioA.survey) /\
  exists df',
    swap_columns ScenarioA.cfg ScenarioA.survey = Ok df' /\
    map snd df' = map snd ScenarioA.survey /\
    (forall n, select df' n
               = select ScenarioA.survey (exchange "Annual_yield" "Crop_type" n)) /\
    swap_columns ScenarioA.cfg df' = Ok ScenarioA.survey.
Proof.
  apply (swap_columns_involution ScenarioA.cfg ScenarioA.survey
           "Annual_yield" "Crop_type").
  - reflexivity.
  - reflexivity.
  - simpl. tauto.
  - simpl. tauto.
Defined.

(** The loop that picks the buffer name stops by its own test: fuel
    beyond the number of columns changes nothing. *)
Lemma temp_name_for_stable (cols : list string) (k : nat) :
  temp_name_loop (length cols + k) "__temp_name_for_swap__" cols
  = temp_name_for cols.
Proof.
  apply temp_name_loop_stable. unfold long. apply filter_length_le.
Qed.

(** C5, first half: numeric coercion never raises; a cell that does not
    read as a number becomes null. *)
Lemma coerce_cell_unparsed (s : string) :
  Text.parse_decimal s = None -> coerce_cell (VText s) = VNull.
Proof. intros H. simpl. now rewrite H. Qed.

Lemma coerce_yield_total (df : table) (c : column) :
  select df "Annual_yield" = [c] ->
  coerce_yield df = Ok (assign df "Annual_yield" (to_numeric_coerce c)).
Proof. intros H. unfold coerce_yield. now rewrite H. Qed.

(** The yield column after the swap is the one that was labelled
    Crop_type before it. *)
Lemma rename_columns_main_pair (cfg : config) (df : table) :
  Dict.first (Dict.keys (columns_to_rename cfg)) = Ok "Annual_yield" ->
  Dict.first (Dict.values (columns_to_rename cfg)) = Ok "Crop_type" ->
  rename_columns cfg df =
  match select df "Crop_type" with
  | [] => Raise (KeyError "Annual_yield")
  | [c] => Ok (assign (relabel (exchange "Annual_yield" "Crop_type") df)
                 "Annual_yield" (to_numeric_coerce c))
  | _ => Raise TypeError
  end.
Proof.
  intros Ha Hb. unfold rename_columns.
  rewrite (swap_columns_relabel cfg df _ _ Ha Hb).
  - simpl. unfold coerce_yield. rewrite select_relabel_exchange.
    reflexivity.
  - intros E. pose proof (temp_name_long (columns df)) as H.
    rewrite E in H. simpl in H. lia.
  - intros E. pose proof (temp_name_long (columns df)) as H.
    rewrite E in H. simpl in H. lia.
Qed.

(** C8 as stated fails: a table without the Annual_yield column, one of
    the two names of the pair, goes through [rename_columns] without any
    error. *)
Lemma rename_columns_absent_name_no_error :
  ~ (forall df,
        has_column df "Annual_yield" = false \/ has_column df "Crop_type" = false ->
        exists k, rename_columns ScenarioA.cfg df = Raise (KeyError k)).
Proof.
  intros H.
  destruct (H [("Field_ID", [VText "F1"]); ("Crop_type", [VText "150.0"])])
    as [k Hk].
  - left. reflexivity.
  - vm_compute in Hk. discriminate.
Qed.

End FieldClaims.

(** ** The weather processor *)

Module WeatherFacts.
Import Frame WeatherDataProcessor FrameFacts.

Lemma map_result_Forall2 {A B} (f : A -> result B) (l : list A) (l' : list B) :
  map_result f l = Ok l' -> Forall2 (fun a b => f a = Ok b) l l'.
Proof.
  revert l'. induction l as [|a l IH]; simpl; intros l' H.
  - injection H as <-. constructor.
  - destruct (f a) as [b|e] eqn:E; simpl in H; [|discriminate].
    destruct (map_result f l) as [bs|e]; simpl in H; [|discriminate].
    injection H as <-. constructor; [exact E | now apply IH].
Qed.

(** *** Selection of the measurement columns *)

Lemma measurement_columns_exact (df : table) (names ms : list string) :
  measurement_columns_of df names = Ok ms ->
  forall name,
    In name ms <->
    In name names /\
    exists c, select df name = [c] /\ existsb notna c = true.
Proof.
  revert ms. induction names as [|n names IH]; simpl; intros ms H name.
  - injection H as <-. simpl. tauto.
  - destruct (has_column df n) eqn:Hn.
    + unfold has_data in H.
      destruct (select df n) as [|c [|c' l]] eqn:Hs; simpl in H;
        try discriminate.
      destruct (measurement_columns_of df names) as [ms'|e]; simpl in H;
        [|discriminate].
      injection H as <-. specialize (IH ms' eq_refl name).
      destruct (existsb notna c) eqn:Hc; simpl; rewrite IH; split.
      * intros [<- | [Hin Hex]]; [|tauto].
        split; [now left|]. now exists c.
      * intros [[<- | Hin] Hex]; [now left | right; tauto].
      * intros [Hin Hex]. tauto.
      * intros [[<- | Hin] Hex]; [|tauto].
        destruct Hex as (c0 & Hc0 & Hd). rewrite Hs in Hc0.
        injection Hc0 as <-. congruence.
    + rewrite (IH ms H name). split.
      * intros [Hin Hex]. tauto.
      * intros [[<- | Hin] Hex]; [|tauto].
        destruct Hex as (c0 & Hc0 & _). apply select_nil in Hn. congruence.
Qed.

(** *** Means *)

Lemma mean_cell_value (cells : column) (v : value) :
  mean_cell cells = Ok v ->
  (numbers cells = [] -> v = VNull) /\
  (numbers cells <> [] ->
   exists q, v = VNum q /\
             (q * inject_Z (Z.of_nat (length (numbers cells)))
              == Qsum (numbers cells))%Q).
Proof.
  unfold mean_cell. destruct (is_object cells); [discriminate|].
  destruct (numbers cells) as [|q0 qs] eqn:E; intros H.
  - split; [intros _; now injection H as <- | congruence].
  - split; [discriminate|]. intros _.
    set (n := inject_Z (Z.of_nat (length (q0 :: qs)))) in *.
    exists (Qred (Qsum (q0 :: qs) / n)).
    split; [symmetry; now injection H|].
    assert (Hn : ~ (n == 0)%Q).
    { unfold n, Qeq. simpl. lia. }
    rewrite Qred_correct. field. exact Hn.
Qed.

Lemma groupby_mean_spec (df : table) (sc : string) (ms : list string)
    (a : aggregate) :
  groupby_mean df sc ms = Ok a ->
  exists station,
    select df sc = [station] /\
    agg_by a = sc /\
    agg_index a = group_keys station /\
    columns (agg_columns a) = ms /\
    forall name mc,
      In (name, mc) (agg_columns a) ->
      exists c,
        select df name = [c] /\
        Forall2 (fun k v => mean_cell (group_cells station c k) = Ok v)
                (group_keys station) mc.
Proof.
  unfold groupby_mean.
  destruct (select df sc) as [|station [|s' l]] eqn:Hs; try discriminate.
  destruct (map_result _ ms) as [cols|e] eqn:Hm; simpl; [|discriminate].
  intros H. injection H as <-. simpl.
  exists station. repeat split; try reflexivity.
  - apply map_result_Forall2 in Hm. clear Hs.
    induction Hm as [|n p ms' cols' Hp _ IH]; simpl; [reflexivity|].
    f_equal; [|exact IH].
    destruct (select df n) as [|c [|c' l]]; try discriminate.
    destruct (mean_column station c (group_keys station)); simpl in Hp;
      [|discriminate].
    now injection Hp as <-.
  - intros name mc Hin. apply map_result_Forall2 in Hm. clear Hs.
    induction Hm as [|n p ms' cols' Hp _ IH]; simpl in Hin; [destruct Hin|].
    destruct Hin as [-> | Hin]; [|now apply IH].
    destruct (select df n) as [|c [|c' l]] eqn:Hn; try discriminate.
    destruct (mean_column station c (group_keys station)) as [mc'|e] eqn:Hmc;
      simpl in Hp; [|discriminate].
    injection Hp as <- <-. exists c. split; [exact Hn|].
    unfold mean_column in Hmc. destruct (is_object c); [discriminate|].
    now apply map_result_Forall2.
Qed.

End WeatherFacts.

(** *** Claims on the weather processor *)

Module WeatherClaims.
Import Frame WeatherDataProcessor FrameFacts WeatherFacts.

(** The loop over the groups ends normally as soon as every group that
    passes the guard reads as a number; it ends with no value exactly
    when no group passes the guard. *)
Lemma first_numeric_well_formed (gs : list (option string)) :
  (forall g, In (Some g) gs -> numeric_guard (Some g) = true ->
             Text.parse_decimal g <> None) ->
  exists r, first_numeric gs = Ok r.
Proof.
  induction gs as [|[g|] gs IH]; cbn [first_numeric]; intros H.
  - now exists None.
  - destruct (numeric_guard (Some g)) eqn:E.
    + unfold py_float.
      destruct (Text.parse_decimal g) as [q|] eqn:P; cbn [bind].
      * now exists (Some q).
      * exfalso. apply (H g); [now left | exact E | exact P].
    + apply IH. intros g' Hin. apply H. now right.
  - apply IH. intros g' Hin. apply H. now right.
Qed.

Lemma first_numeric_none (gs : list (option string)) :
  first_numeric gs = Ok None <-> forallb (fun g => negb (numeric_guard g)) gs = true.
Proof.
  induction gs as [|[g|] gs IH]; cbn [first_numeric forallb].
  - tauto.
  - destruct (numeric_guard (Some g)) eqn:E; cbn [negb andb]; [|exact IH].
    unfold py_float. destruct (Text.parse_decimal g); cbn [bind];
      split; discriminate.
  - exact IH.
Qed.

(** C2 at a failing input: the first group of the match, "1.2.3", passes
    the guard, [float] rejects it, and the call raises instead of going
    on to the second group, "7". *)
Theorem extract_measurement_raises_on_version :
  exists r,
    Regex.compile Slip.version_pattern = Some r /\
    Regex.search r Slip.version_message = Some [Some "1.2.3"; Some "7"] /\
    extract_measurement [("Build", r)] Slip.version_message "Build"
    = Raise ValueError.
Proof. eexists. repeat split; vm_compute; reflexivity. Qed.

(** C5 at a failing input: the captured date passes the numeric check,
    the float conversion of it fails, and the failure leaves
    [extract_measurement] as an exception. *)
Theorem extract_measurement_raises_on_date :
  exists r,
    Regex.compile Slip.date_pattern = Some r /\
    Regex.search r Slip.date_message = Some [Some "2025-10-01"] /\
    numeric_guard (Some "2025-10-01") = true /\
    py_float "2025-10-01" = Raise ValueError /\
    extract_measurement [("Date", r)] Slip.date_message "Date"
    = Raise ValueError.
Proof. eexists. repeat split; vm_compute; reflexivity. Qed.

(** C6 as stated fails: in the patterns as the specification writes them
    the only group is the optional fraction, which takes no part in the
    match of "9mm" or "22C", so both measurements come out null. *)
Lemma scenario_B_spec_patterns_null :
  exists ps df st,
    ScenarioB.compile_all ScenarioB.spec_patterns = Some ps /\
    extract_measurement ps ScenarioB.message "Rainfall" = Ok None /\
    extract_measurement ps ScenarioB.message "Temperature" = Ok None /\
    process (Ok ScenarioB.weather) (ScenarioB.start ps) = Ok (Some df, st) /\
    cell df "Rainfall" 0 = Some VNull /\
    cell df "Temperature" 0 = Some VNull.
Proof. do 3 eexists. repeat split; vm_compute; reflexivity. Qed.

(** C6, with the patterns as [main] configures them (the whole number
    inside a capturing group): the row of scenario B gets
    Rainfall = 9.0 and Temperature = 22.0. *)
Theorem scenario_B_main_patterns :
  exists ps df st,
    ScenarioB.compile_all ScenarioB.main_patterns = Some ps /\
    process (Ok ScenarioB.weather) (ScenarioB.start ps) = Ok (Some df, st) /\
    cell df "Rainfall" 0 = Some (VNum 9) /\
    cell df "Temperature" 0 = Some (VNum 22).
Proof. do 3 eexists. repeat split; vm_compute; reflexivity. Qed.

End WeatherClaims.

(** *** Aggregation and the pipeline *)

Module PipelineClaims.
Import Frame WeatherDataProcessor FrameFacts WeatherFacts.

(** The readings of scenario C: extraction gives the table [extracted],
    and its means are the expected ones: [10.0, null, 20.0] for station A
    give 15.0, station B without a number gives null, and the all-null
    measurements have no column. *)
Lemma scenario_C_means :
  exists st,
    process (Ok ScenarioC.readings)
            (ScenarioB.start (ScenarioB.compiled ScenarioB.main_patterns))
    = Ok (Some ScenarioC.extracted, st) /\
    calculate_means_body (ScenarioB.compiled ScenarioB.main_patterns)
                         ScenarioC.extracted
    = Ok (Some ScenarioC.expected_means) /\
    weather_df_mean st = Some ScenarioC.expected_means.
Proof. eexists. repeat split; vm_compute; reflexivity. Qed.

End PipelineClaims.

Module OrchestratorClaims.
Import Frame WeatherDataProcessor FrameFacts WeatherFacts.

Lemma calculate_means_cases (st : state) :
  exists st',
    calculate_means st = Ok st' /\
    weather_df st' = weather_df st /\
    regex_patterns st' = regex_patterns st /\
    (st' = st \/
     exists df a,
       weather_df st = Some df /\
       calculate_means_body (regex_patterns st) df = Ok (Some a) /\
       weather_df_mean st' = Some a).
Proof.
  unfold calculate_means.
  destruct (weather_df st) as [df|] eqn:Hdf.
  - destruct (calculate_means_body (regex_patterns st) df) as [[a|]|e] eqn:Hb.
    + exists (set_weather_df_mean st a). repeat split; try assumption.
      right. exists df, a. repeat split; assumption.
    + exists st. repeat split; try assumption. now left.
    + exists st. repeat split; try assumption. now left.
  - exists st. repeat split; try assumption. now left.
Qed.

(** C7: an exception of the CSV ingestion leaves [process], an exception
    of the message extraction leaves [process], and when the aggregation
    raises or stops without a result [process] still returns the
    extracted table, with the state as extraction left it. *)
Theorem process_failure_policy (csv : result table) (st : state) :
  (forall e, csv = Raise e -> process csv st = Raise e) /\
  (forall df e,
      csv = Ok df ->
      process_messages (set_weather_df st df) = Raise e ->
      process csv st = Raise e) /\
  (forall df st2 df2,
      csv = Ok df ->
      process_messages (set_weather_df st df) = Ok st2 ->
      weather_df st2 = Some df2 ->
      (calculate_means_body (regex_patterns st2) df2 = Ok None \/
       exists e, calculate_means_body (regex_patterns st2) df2 = Raise e) ->
      process csv st = Ok (Some df2, st2)).
Proof.
  split; [|split].
  - intros e ->. reflexivity.
  - intros df e -> H. unfold process. simpl. now rewrite H.
  - intros df st2 df2 -> H Hdf Hb. unfold process. simpl. rewrite H. simpl.
    unfold calculate_means. rewrite Hdf.
    destruct Hb as [Hb | [e Hb]]; rewrite Hb; now rewrite Hdf.
Qed.

(** The three cases of C7 on concrete runs: a failed download, a message
    cell that is not text, and an aggregation that raises on a station
    label carried by two columns. *)
Lemma process_failure_policy_witness :
  let ps := ScenarioB.compiled ScenarioB.main_patterns in
  process (Raise (FetchError "unreachable")) (ScenarioB.start ps)
  = Raise (FetchError "unreachable") /\
  process (Ok [("Station", [VText "A"]); ("Message", [VNull])])
          (ScenarioB.start ps)
  = Raise TypeError /\
  exists df2 st2,
    calculate_means_body ps df2 = Raise ValueError /\
    process (Ok ScenarioC.twin_stations) (ScenarioB.start ps)
    = Ok (Some df2, st2).
Proof.
  intros ps. split; [|split].
  - apply (proj1 (process_failure_policy
                    (Raise (FetchError "unreachable")) (ScenarioB.start ps))).
    reflexivity.
  - apply (proj1 (proj2 (process_failure_policy
                           (Ok [("Station", [VText "A"]); ("Message", [VNull])])
                           (ScenarioB.start ps)))
             [("Station", [VText "A"]); ("Message", [VNull])]).
    + reflexivity.
    + vm_compute. reflexivity.
  - eexists. eexists. split.
    2: { apply (proj2 (proj2 (process_failure_policy
                                (Ok ScenarioC.twin_stations)
                                (ScenarioB.start ps)))
                  ScenarioC.twin_stations).
         - reflexivity.
         - vm_compute. reflexivity.
         - reflexivity.
         - right. exists ValueError. vm_compute. reflexivity. }
    vm_compute. reflexivity.
Defined.

(** C10: [calculate_means] always ends normally and leaves the weather
    table and the patterns as they were; all it may change is
    [weather_df_mean].  So after a successful ingestion and extraction
    [process] returns the extracted table, whatever the aggregation
    did. *)
Theorem process_returns_extracted (csv : result table) (st : state) :
  (forall s, exists s',
      calculate_means s = Ok s' /\
      weather_df s' = weather_df s /\
      regex_patterns s' = regex_patterns s) /\
  (forall df st2,
      csv = Ok df ->
      process_messages (set_weather_df st df) = Ok st2 ->
      exists st3,
        process csv st = Ok (weather_df st2, st3) /\
        weather_df st3 = weather_df st2 /\
        (st3 = st2 \/
         exists df2 a,
           weather_df st2 = Some df2 /\
           calculate_means_body (regex_patterns st2) df2 = Ok (Some a) /\
           weather_df_mean st3 = Some a)).
Proof.
  split.
  - intros s. destruct (calculate_means_cases s) as (s' & H1 & H2 & H3 & _).
    now exists s'.
  - intros df st2 -> H.
    destruct (calculate_means_cases st2) as (st3 & H1 & H2 & H3 & H4).
    exists st3. unfold process. simpl. rewrite H. simpl. rewrite H1.
    rewrite H2. repeat split; assumption.
Qed.

Lemma process_returns_extracted_witness :
  let ps := ScenarioB.compiled ScenarioB.main_patterns in
  exists st3,
    process (Ok ScenarioC.readings) (ScenarioB.start ps)
    = Ok (Some ScenarioC.extracted, st3) /\
    weather_df st3 = Some ScenarioC.extracted /\
    weather_df_mean st3 = Some ScenarioC.expected_means.
Proof.
  intros ps.
  destruct (proj2 (process_returns_extracted
                     (Ok ScenarioC.readings) (ScenarioB.start ps))
              ScenarioC.readings
              {| regex_patterns := ps;
                 weather_df := Some ScenarioC.extracted;
                 weather_df_mean := None |})
    as (st3 & H1 & H2 & H3).
  - reflexivity.
  - vm_compute. reflexivity.
  - exists st3. split; [exact H1|]. split; [exact H2|].
    destruct H3 as [-> | (df2 & a & Hd & Hb & Hm)].
    + vm_compute in H1. discriminate.
    + rewrite Hm. f_equal.
      simpl in Hd. injection Hd as <-.
      assert (E : calculate_means_body ps ScenarioC.extracted
                  = Ok (Some ScenarioC.expected_means))
        by (vm_compute; reflexivity).
      simpl in Hb. rewrite E in Hb. now injection Hb.
Defined.

End OrchestratorClaims.

(** ** Further properties of the field corrector *)

Module FieldExtras.
Import Frame FieldDataProcessor FrameFacts SwapFacts FieldFacts Reference.

(** *** The swap on any configuration *)

Lemma data_rename (m : dict string) (df : table) :
  map snd (rename m df) = map snd df.
Proof. unfold rename. now rewrite map_map. Qed.

Lemma swap_columns_data (cfg : config) (df df' : table) :
  swap_columns cfg df = Ok df' -> map snd df' = map snd df.
Proof.
  unfold swap_columns.
  destruct (columns_to_rename cfg) as [|[a b] d]; simpl; [discriminate|].
  intros H. injection H as <-. now rewrite !data_rename.
Qed.

(** The swap only relabels: whatever the rename pair, every column keeps
    its place and its cells; the only way it fails is an empty
    [columns_to_rename], on [list(...)[0]]. *)
Theorem swap_columns_only_relabels (cfg : config) (df : table) :
  match swap_columns cfg df with
  | Ok df' => map snd df' = map snd df /\ columns_to_rename cfg <> []
  | Raise e => e = IndexError /\ columns_to_rename cfg = []
  end.
Proof.
  unfold swap_columns.
  destruct (columns_to_rename cfg) as [|[a b] d]; simpl.
  - split; reflexivity.
  - split; [|discriminate]. now rewrite !data_rename.
Qed.

(** *** Numeric coercion *)

Lemma coerce_no_text (c : column) : is_object (to_numeric_coerce c) = false.
Proof.
  unfold is_object, to_numeric_coerce.
  induction c as [|v c IH]; simpl; [reflexivity|].
  rewrite IH. destruct v as [| q | s]; simpl; try reflexivity.
  now destruct (Text.parse_decimal s).
Qed.

Lemma coerce_float_column (c : column) :
  is_object c = false -> to_numeric_coerce c = c.
Proof.
  unfold is_object, to_numeric_coerce.
  induction c as [|v c IH]; simpl; [reflexivity|].
  intros H. apply orb_false_elim in H as [Hv Hc].
  rewrite (IH Hc). now destruct v.
Qed.

Lemma select_assign_other (T : table) (n n' : string) (c : column) :
  has_column T n = true -> n' <> n ->
  select (assign T n c) n' = select T n'.
Proof.
  intros H Hn. unfold assign. rewrite H. now apply select_update_other.
Qed.

Lemma select_single_has (T : table) (n : string) (c : column) :
  select T n = [c] -> has_column T n = true.
Proof.
  intros H. destruct (has_column T n) eqn:E; [reflexivity|].
  apply select_nil in E. congruence.
Qed.

(** After [rename_columns] the yield column holds numbers and nulls only:
    it is the coercion of the column the swap put under the label, the
    labels are those of the swapped table, and every other column is the
    swapped one, untouched.  Coercion keeps a column that had no text. *)
Theorem rename_columns_yield_numeric (cfg : config) (df df' : table) :
  rename_columns cfg df = Ok df' ->
  exists df1 y,
    swap_columns cfg df = Ok df1 /\
    select df1 "Annual_yield" = [y] /\
    select df' "Annual_yield" = [to_numeric_coerce y] /\
    is_object (to_numeric_coerce y) = false /\
    (is_object y = false -> to_numeric_coerce y = y) /\
    columns df' = columns df1 /\
    (forall n, n <> "Annual_yield" -> select df' n = select df1 n).
Proof.
  unfold rename_columns.
  destruct (swap_columns cfg df) as [df1|e]; simpl; [|discriminate].
  unfold coerce_yield.
  destruct (select df1 "Annual_yield") as [|y [|y' l]] eqn:Hy; try discriminate.
  intros H. injection H as <-. exists df1, y.
  pose proof (select_single_has _ _ _ Hy) as Hc.
  split; [reflexivity|]. split; [exact Hy|].
  split; [now apply select_assign_single with (c := y)|].
  split; [apply coerce_no_text|].
  split; [apply coerce_float_column|].
  split; [now apply columns_assign_present|].
  intros n Hn. now apply select_assign_other.
Qed.

Lemma rename_columns_yield_numeric_witness :
  exists df1 y,
    swap_columns ScenarioA.cfg ScenarioA.survey = Ok df1 /\
    select df1 "Annual_yield" = [y] /\
    is_object (to_numeric_coerce y) = false.
Proof.
  destruct (rename_columns_yield_numeric ScenarioA.cfg ScenarioA.survey
              [("Field_ID", [VText "F1"]); ("Annual_yield", [VNum 150]);
               ("Crop_type", [VText " Cassaval "]); ("Elevation", [VNum (-123 # 10)])])
    as (df1 & y & H1 & H2 & _ & H4 & _).
  - vm_compute. reflexivity.
  - exists df1, y. repeat split; assumption.
Defined.

End FieldExtras.

Module CorrectionExtras.
Import Frame FieldDataProcessor FrameFacts SwapFacts FieldFacts Reference.
Import FieldExtras.

(** *** The elevation repair *)

Lemma abs_column_float (c : column) :
  is_object c = false -> map_result abs_cell c = Ok (map abs_value c).
Proof.
  unfold is_object. induction c as [|v c IH]; simpl; [reflexivity|].
  intros H. apply orb_false_elim in H as [Hv Hc].
  rewrite (IH Hc). destruct v; simpl; try reflexivity. discriminate.
Qed.

Lemma abs_column_text (c : column) :
  is_object c = true -> map_result abs_cell c = Raise TypeError.
Proof.
  unfold is_object. induction c as [|v c IH]; simpl; [discriminate|].
  intros H. destruct v as [| q | s]; simpl in *; try reflexivity;
    now rewrite (IH H).
Qed.

Lemma abs_pairs_ok (ac : string) (df : table) :
  (forall c, In c (select df ac) -> is_object c = false) ->
  map_result (abs_pair ac) df = Ok (update df ac (map abs_value)).
Proof.
  unfold select, update.
  induction df as [|[k c] df IH]; simpl; intros H; [reflexivity|].
  unfold abs_pair at 1. simpl.
  destruct (String.eqb k ac) eqn:E; simpl in *.
  - rewrite abs_column_float by (apply H; now left). simpl.
    rewrite IH by (intros c' Hc'; apply H; now right). reflexivity.
  - rewrite IH by exact H. reflexivity.
Qed.

Lemma abs_pairs_text (ac : string) (df : table) (c : column) :
  In c (select df ac) -> is_object c = true ->
  map_result (abs_pair ac) df = Raise TypeError.
Proof.
  unfold select.
  induction df as [|[k c0] df IH]; simpl; intros Hin Hc; [destruct Hin|].
  unfold abs_pair at 1. simpl.
  destruct (String.eqb k ac) eqn:E; simpl in *.
  - destruct (is_object c0) eqn:E0.
    + now rewrite abs_column_text.
    + rewrite abs_column_float by exact E0. simpl.
      destruct Hin as [-> | Hin]; [congruence|].
      now rewrite (IH Hin Hc).
  - now rewrite (IH Hin Hc).
Qed.

Lemma abs_step_unfold (df : table) (ac : string) :
  abs_step df ac =
  match select df ac with
  | [] => Raise (KeyError ac)
  | _ => map_result (abs_pair ac) df
  end.
Proof. reflexivity. Qed.

Lemma float_columns_dec (l : list column) :
  (forall c, In c l -> is_object c = false) \/
  (exists c, In c l /\ is_object c = true).
Proof.
  induction l as [|c l [IH | (c' & Hin & Hc')]].
  - left. intros c [].
  - destruct (is_object c) eqn:E.
    + right. exists c. split; [now left | exact E].
    + left. intros c' [<- | Hin]; [exact E | now apply IH].
  - right. exists c'. split; [now right | exact Hc'].
Qed.

(** What [df[abs_column] = df[abs_column].abs()] does, case by case. *)
Lemma abs_step_cases (df : table) (ac : string) :
  (select df ac = [] /\ abs_step df ac = Raise (KeyError ac)) \/
  (select df ac <> [] /\
   (exists c, In c (select df ac) /\ is_object c = true) /\
   abs_step df ac = Raise TypeError) \/
  (select df ac <> [] /\
   (forall c, In c (select df ac) -> is_object c = false) /\
   abs_step df ac = Ok (update df ac (map abs_value))).
Proof.
  rewrite abs_step_unfold.
  destruct (select df ac) as [|c0 l] eqn:Hs; [left; now split|].
  right. destruct (float_columns_dec (c0 :: l)) as [H | (c & Hin & Hc)].
  - right. split; [discriminate|]. split; [exact H|].
    apply abs_pairs_ok. now rewrite Hs.
  - left. split; [discriminate|]. split; [now exists c|].
    apply (abs_pairs_text ac df c); [now rewrite Hs | exact Hc].
Qed.

Lemma abs_value_repaired (v : value) :
  Frame.is_text v = false -> repaired (abs_value v).
Proof.
  destruct v as [| q | s]; simpl; intros H; [now left | | discriminate].
  right. exists (Qabs q). split; [reflexivity | apply Qabs_nonneg].
Qed.

Lemma abs_value_idem (v : value) : abs_value (abs_value v) = abs_value v.
Proof.
  destruct v as [| [n d] | s]; simpl; try reflexivity.
  now rewrite Z.abs_idemp.
Qed.

Lemma is_object_abs (c : column) : is_object (map abs_value c) = is_object c.
Proof.
  unfold is_object. induction c as [|v c IH]; simpl; [reflexivity|].
  rewrite IH. now destruct v.
Qed.

Lemma update_update (T : table) (n : string) (f g : column -> column) :
  update (update T n f) n g = update T n (fun c => g (f c)).
Proof.
  unfold update. rewrite map_map. apply map_ext. intros [k c]. simpl.
  destruct (String.eqb k n) eqn:E; simpl; now rewrite E.
Qed.

Lemma numeric_float (c : column) : Dtype.numeric c = true -> is_object c = false.
Proof.
  unfold Dtype.numeric. intros H. apply andb_prop in H as [H _].
  now apply negb_true_iff in H.
Qed.

(** The elevation repair, on columns of a numeric dtype that do not hold
    the least [int64]: when it succeeds every cell under the label is
    null or a number that is not negative, each the absolute value of the
    cell it replaces, no other column changes, and repairing again
    changes nothing. *)
Theorem abs_step_repairs (df df' : table) (ac : string) :
  (forall c, In c (select df ac) ->
             Dtype.numeric c = true /\ Dtype.int64_safe c = true) ->
  abs_step df ac = Ok df' ->
  select df' ac = map (map abs_value) (select df ac) /\
  (forall c v, In c (select df' ac) -> In v c -> repaired v) /\
  columns df' = columns df /\
  (forall n, n <> ac -> select df' n = select df n) /\
  abs_step df' ac = Ok df'.
Proof.
  intros Hnum H.
  assert (Hfl : forall c, In c (select df ac) -> is_object c = false)
    by (intros c Hc; apply numeric_float; now apply Hnum).
  destruct (abs_step_cases df ac)
    as [[_ E] | [(_ & _ & E) | (Hne & _ & E)]];
    rewrite E in H; try discriminate.
  injection H as <-.
  assert (Hsel : select (update df ac (map abs_value)) ac
                 = map (map abs_value) (select df ac))
    by apply select_update.
  split; [exact Hsel|]. split; [|split; [|split]].
  - intros c v Hc Hv. rewrite Hsel in Hc.
    apply in_map_iff in Hc as (c0 & <- & Hc0).
    apply in_map_iff in Hv as (v0 & <- & Hv0).
    apply abs_value_repaired.
    specialize (Hfl c0 Hc0). unfold is_object in Hfl.
    destruct (is_text v0) eqn:Et; [|reflexivity].
    assert (existsb is_text c0 = true)
      by (apply existsb_exists; now exists v0).
    congruence.
  - apply columns_update.
  - intros n Hn. now apply select_update_other.
  - destruct (abs_step_cases (update df ac (map abs_value)) ac)
      as [[E1 _] | [(_ & (c & Hc & Hobj) & _) | (_ & _ & E1)]].
    + rewrite Hsel in E1. destruct (select df ac); [congruence | discriminate].
    + rewrite Hsel in Hc. apply in_map_iff in Hc as (c0 & <- & Hc0).
      rewrite is_object_abs in Hobj. rewrite (Hfl c0 Hc0) in Hobj. discriminate.
    + rewrite E1. f_equal. rewrite update_update.
      unfold update. apply map_ext. intros [k c]. simpl.
      destruct (String.eqb k ac); [|reflexivity].
      f_equal. rewrite map_map. apply map_ext. apply abs_value_idem.
Qed.

Lemma abs_step_repairs_witness :
  let df := [("Elevation", [VNum (-123 # 10); VNull; VNum 7])] in
  let df' := [("Elevation", [VNum (123 # 10); VNull; VNum 7])] in
  select df' "Elevation" = map (map abs_value) (select df "Elevation") /\
  (forall c v, In c (select df' "Elevation") -> In v c -> repaired v) /\
  columns df' = columns df /\
  (forall n, n <> "Elevation" -> select df' n = select df n) /\
  abs_step df' "Elevation" = Ok df'.
Proof.
  apply (abs_step_repairs
           [("Elevation", [VNum (-123 # 10); VNull; VNum 7])]
           [("Elevation", [VNum (123 # 10); VNull; VNum 7])] "Elevation").
  - intros c [<- | []]. split; reflexivity.
  - reflexivity.
Defined.

End CorrectionExtras.

Module ApplyCorrections.
Import Frame FieldDataProcessor FrameFacts SwapFacts FieldFacts Reference.
Import FieldExtras CorrectionExtras.

Lemma series_cases (df : table) (n : string) :
  (select df n = [] /\ series df n = Raise (KeyError n)) \/
  (exists c, select df n = [c] /\ series df n = Ok c) \/
  (exists c c' l, select df n = c :: c' :: l /\ series df n = Raise AttributeError).
Proof.
  unfold series. destruct (select df n) as [|c [|c' l]].
  - left. now split.
  - right. left. now exists c.
  - right. right. now exists c, c', l.
Qed.

(** What the two statements on the crop-type column do, case by case. *)
Lemma crop_step_cases (cfg : config) (df : table) (cn : string) :
  (select df cn = [] /\ crop_step cfg df cn = Raise (KeyError cn)) \/
  (exists c, select df cn = [c] /\ is_object c = true /\
             crop_step cfg df cn
             = Ok (assign df cn (map (step_cell (values_to_rename cfg)) c))) \/
  ((forall c, select df cn = [c] -> is_object c = false) /\
   select df cn <> [] /\
   crop_step cfg df cn = Raise AttributeError).
Proof.
  destruct (select df cn) as [|c [|c' l]] eqn:Hs.
  - left. split; [reflexivity|]. unfold crop_step, series. now rewrite Hs.
  - right. rewrite (crop_step_column cfg df cn c Hs).
    destruct (is_object c) eqn:E.
    + left. exists c. split; [reflexivity|]. split; [exact E|].
      now rewrite correct_column_object.
    + right. split; [|split; [discriminate|]].
      * intros c0 H0. injection H0 as <-. exact E.
      * now rewrite correct_column_float.
  - right. right. split; [|split; [discriminate|]].
    + intros c0 H0. discriminate.
    + unfold crop_step, series. now rewrite Hs.
Qed.

(** [apply_corrections] succeeds on a table whose elevation label is
    carried by one column of a numeric dtype and whose crop label is
    carried by one column holding some text; it keeps the labels, and
    every column under another label. *)
Theorem apply_corrections_succeeds (cfg : config) (df : table)
    (cn ac : string) (e c : column) :
  select df ac = [e] -> Dtype.numeric e = true ->
  select df cn = [c] -> is_object c = true ->
  exists df',
    apply_corrections cfg df cn ac = Ok df' /\
    columns df' = columns df /\
    (forall n, n <> cn -> n <> ac -> select df' n = select df n).
Proof.
  intros He Hnum Hc Hobj. apply numeric_float in Hnum.
  assert (Hn : cn <> ac).
  { intros ->. rewrite He in Hc. injection Hc as ->. congruence. }
  unfold apply_corrections.
  destruct (abs_step_cases df ac)
    as [[E _] | [(_ & (c0 & Hc0 & Hobj0) & _) | (_ & _ & E)]].
  - congruence.
  - rewrite He in Hc0. destruct Hc0 as [<- | []]. congruence.
  - rewrite E. simpl.
    assert (Hc2 : select (update df ac (map abs_value)) cn = [c])
      by (rewrite select_update_other by exact Hn; exact Hc).
    destruct (crop_step_cases cfg (update df ac (map abs_value)) cn)
      as [[E1 _] | [(c1 & _ & _ & E1) | (Hno & _ & _)]].
    + congruence.
    + rewrite E1. eexists. split; [reflexivity|]. split.
      * rewrite columns_assign_present, columns_update; [reflexivity|].
        now apply select_single_has with c.
      * intros n Hn1 Hn2. rewrite select_assign_other;
          [|now apply select_single_has with c | exact Hn1].
        now apply select_update_other.
    + rewrite (Hno c Hc2) in Hobj. discriminate.
Qed.

Lemma apply_corrections_succeeds_witness :
  exists df',
    apply_corrections ScenarioA.cfg
      [("Crop_type", [VText " Cassaval "]); ("Elevation", [VNum (-123 # 10)])]
      "Crop_type" "Elevation" = Ok df' /\
    columns df' = ["Crop_type"; "Elevation"] /\
    (forall n, n <> "Crop_type" -> n <> "Elevation" ->
               select df' n
               = select [("Crop_type", [VText " Cassaval "]);
                         ("Elevation", [VNum (-123 # 10)])] n).
Proof.
  apply (apply_corrections_succeeds ScenarioA.cfg
           [("Crop_type", [VText " Cassaval "]);
            ("Elevation", [VNum (-123 # 10)])]
           "Crop_type" "Elevation" [VNum (-123 # 10)] [VText " Cassaval "]);
    reflexivity.
Defined.

(** The failures of [apply_corrections], in the order the code meets
    them: a missing elevation column is a [KeyError] on its label, text
    in an elevation column a [TypeError]; after that, with the elevation
    in one column of a numeric dtype, a missing crop column is a
    [KeyError] on its label, and a crop column of a numeric dtype, or a
    crop label on several columns, an [AttributeError]. *)
Theorem apply_corrections_failures (cfg : config) (df : table) (cn ac : string) :
  (select df ac = [] ->
   apply_corrections cfg df cn ac = Raise (KeyError ac)) /\
  ((exists c, In c (select df ac) /\ is_object c = true) ->
   apply_corrections cfg df cn ac = Raise TypeError) /\
  (forall e, select df ac = [e] -> Dtype.numeric e = true ->
   (select df cn = [] ->
    apply_corrections cfg df cn ac = Raise (KeyError cn)) /\
   ((exists c, select df cn = [c] /\ Dtype.numeric c = true) ->
    apply_corrections cfg df cn ac = Raise AttributeError) /\
   ((exists c c' l, select df cn = c :: c' :: l) ->
    apply_corrections cfg df cn ac = Raise AttributeError)).
Proof.
  unfold apply_corrections. split; [|split].
  - intros H.
    destruct (abs_step_cases df ac)
      as [[_ E] | [(Hne & _) | (Hne & _)]]; [now rewrite E | congruence ..].
  - intros (c & Hc & Hobj).
    destruct (abs_step_cases df ac)
      as [[E _] | [(_ & _ & E) | (_ & Hfl & _)]].
    + rewrite E in Hc. destruct Hc.
    + now rewrite E.
    + rewrite (Hfl c Hc) in Hobj. discriminate.
  - intros e He Hnum. apply numeric_float in Hnum.
    destruct (abs_step_cases df ac)
      as [[E _] | [(_ & (c0 & Hc0 & Hobj0) & _) | (_ & _ & E)]].
    + congruence.
    + rewrite He in Hc0. destruct Hc0 as [<- | []]. congruence.
    + rewrite E. simpl.
      assert (Hsel : forall n, n <> ac ->
                select (update df ac (map abs_value)) n = select df n)
        by (intros n Hn; now apply select_update_other).
      assert (Hac : select (update df ac (map abs_value)) ac = [map abs_value e])
        by (rewrite select_update, He; reflexivity).
      split; [|split].
      * intros Hcn.
        assert (Hn : cn <> ac) by (intros ->; congruence).
        destruct (crop_step_cases cfg (update df ac (map abs_value)) cn)
          as [[_ E1] | [(c1 & Hc1 & _) | (_ & Hne1 & _)]].
        -- exact E1.
        -- rewrite Hsel in Hc1 by exact Hn. congruence.
        -- rewrite Hsel in Hne1 by exact Hn. congruence.
      * intros (c & Hc & Hcnum). apply numeric_float in Hcnum.
        destruct (crop_step_cases cfg (update df ac (map abs_value)) cn)
          as [[E1 _] | [(c1 & Hc1 & Hobj1 & _) | (_ & _ & E1)]].
        -- destruct (String.eqb_spec cn ac) as [-> | Hn];
             [congruence | rewrite Hsel in E1 by exact Hn; congruence].
        -- destruct (String.eqb_spec cn ac) as [-> | Hn].
           ++ rewrite Hac in Hc1. injection Hc1 as <-.
              rewrite is_object_abs in Hobj1. congruence.
           ++ rewrite Hsel in Hc1 by exact Hn. congruence.
        -- exact E1.
      * intros (c & c' & l & Hc).
        assert (Hn : cn <> ac) by (intros ->; congruence).
        destruct (crop_step_cases cfg (update df ac (map abs_value)) cn)
          as [[E1 _] | [(c1 & Hc1 & _) | (_ & _ & E1)]].
        -- rewrite Hsel in E1 by exact Hn. congruence.
        -- rewrite Hsel in Hc1 by exact Hn. congruence.
        -- exact E1.
Qed.

Lemma apply_corrections_failures_witness :
  apply_corrections ScenarioA.cfg [("Crop_type", [VText "tea"])]
    "Crop_type" "Elevation" = Raise (KeyError "Elevation") /\
  apply_corrections ScenarioA.cfg
    [("Crop_type", [VText "tea"]); ("Elevation", [VText "high"])]
    "Crop_type" "Elevation" = Raise TypeError /\
  apply_corrections ScenarioA.cfg [("Elevation", [VNum 3])]
    "Crop_type" "Elevation" = Raise (KeyError "Crop_type") /\
  apply_corrections ScenarioA.cfg
    [("Crop_type", [VNum 150]); ("Elevation", [VNum 3])]
    "Crop_type" "Elevation" = Raise AttributeError /\
  apply_corrections ScenarioA.cfg
    [("Crop_type", [VText "tea"]); ("Crop_type", [VText "maize"]);
     ("Elevation", [VNum 3])]
    "Crop_type" "Elevation" = Raise AttributeError.
Proof.
  split; [|split; [|split; [|split]]].
  - apply (proj1 (apply_corrections_failures ScenarioA.cfg
                    [("Crop_type", [VText "tea"])] "Crop_type" "Elevation")).
    reflexivity.
  - apply (proj1 (proj2 (apply_corrections_failures ScenarioA.cfg
                           [("Crop_type", [VText "tea"]);
                            ("Elevation", [VText "high"])]
                           "Crop_type" "Elevation"))).
    exists [VText "high"]. split; [now left | reflexivity].
  - apply (proj1 (proj2 (proj2 (apply_corrections_failures ScenarioA.cfg
                                  [("Elevation", [VNum 3])]
                                  "Crop_type" "Elevation"))
                    [VNum 3] eq_refl eq_refl)).
    reflexivity.
  - apply (proj1 (proj2 (proj2 (proj2 (apply_corrections_failures ScenarioA.cfg
                                  [("Crop_type", [VNum 150]); ("Elevation", [VNum 3])]
                                  "Crop_type" "Elevation"))
                    [VNum 3] eq_refl eq_refl))).
    exists [VNum 150]. split; reflexivity.
  - apply (proj2 (proj2 (proj2 (proj2 (apply_corrections_failures ScenarioA.cfg
                                  [("Crop_type", [VText "tea"]);
                                   ("Crop_type", [VText "maize"]);
                                   ("Elevation", [VNum 3])]
                                  "Crop_type" "Elevation"))
                    [VNum 3] eq_refl eq_refl))).
    exists [VText "tea"], [VText "maize"], []. reflexivity.
Defined.

End ApplyCorrections.

Module CorrectExtras.
Import Frame FieldDataProcessor FrameFacts SwapFacts FieldFacts Reference.
Import FieldExtras CorrectionExtras ApplyCorrections.

Lemma columns_assign_single (T : table) (n : string) (c c' : column) :
  select T n = [c] -> columns (assign T n c') = columns T.
Proof.
  intros H. apply columns_assign_present. now apply select_single_has with c.
Qed.

Lemma select_assign_single_other (T : table) (n n' : string) (c c' : column) :
  select T n = [c] -> n' <> n -> select (assign T n c') n' = select T n'.
Proof.
  intros H Hn. apply select_assign_other; [|exact Hn].
  now apply select_single_has with c.
Qed.

(** *** Shape *)

Lemma rectangular_data (n : nat) (T T' : table) :
  map snd T' = map snd T -> Shape.rectangular n T -> Shape.rectangular n T'.
Proof.
  unfold Shape.rectangular. rewrite !Forall_forall. intros E H p Hp.
  assert (Hin : In (snd p) (map snd T)).
  { rewrite <- E. apply in_map_iff. now exists p. }
  apply in_map_iff in Hin as (p0 & E0 & H0). rewrite <- E0. now apply H.
Qed.

Lemma rectangular_update (n : nat) (T : table) (name : string)
    (f : column -> column) :
  (forall c, In c (select T name) -> length (f c) = n) ->
  Shape.rectangular n T -> Shape.rectangular n (update T name f).
Proof.
  unfold Shape.rectangular, update, select.
  induction T as [|[k c] T IH]; simpl; intros Hf H; [constructor|].
  apply Forall_cons_iff in H as [Hc HT]. simpl in Hc.
  destruct (String.eqb k name) eqn:E; simpl in *.
  - constructor; [simpl; apply Hf; now left|].
    apply IH; [intros c' Hc'; apply Hf; now right | exact HT].
  - constructor; [exact Hc|]. now apply IH.
Qed.

Lemma rectangular_select (n : nat) (T : table) (name : string) (c : column) :
  Shape.rectangular n T -> In c (select T name) -> length c = n.
Proof.
  unfold Shape.rectangular, select. rewrite Forall_forall. intros H Hin.
  apply in_map_iff in Hin as (p & <- & Hp). apply filter_In in Hp as [Hp _].
  now apply H.
Qed.

Lemma rectangular_assign (n : nat) (T : table) (name : string) (c c' : column) :
  select T name = [c] -> length c' = n ->
  Shape.rectangular n T -> Shape.rectangular n (assign T name c').
Proof.
  intros Hs Hl H. unfold assign.
  rewrite (select_single_has _ _ _ Hs).
  apply rectangular_update; [|exact H]. now intros.
Qed.

End CorrectExtras.

(** ** Ingestion, the field pipeline and logging *)

Module PipelineExtras.
Import Frame FieldDataProcessor FrameFacts.

(** [query_data] never hands an empty table on: what it returns is the
    frame the query gave, with a column and a row; an empty frame is a
    [ValueError], and an exception of the query is raised again as it
    is. *)
Theorem query_data_outcome (read_sql : result table) :
  match DataIngestion.query_data read_sql with
  | Ok df => read_sql = Ok df /\ df <> [] /\ (0 < Shape.n_rows df)%nat
  | Raise e =>
      read_sql = Raise e \/
      (e = ValueError /\ exists df, read_sql = Ok df /\ Shape.empty df = true)
  end.
Proof.
  unfold DataIngestion.query_data.
  destruct read_sql as [df|e]; simpl; [|now left].
  destruct (Shape.empty df) eqn:E.
  - right. split; [reflexivity|]. now exists df.
  - split; [reflexivity|]. unfold Shape.empty in E.
    destruct df as [|p df]; [discriminate|].
    split; [discriminate|]. apply Nat.eqb_neq in E. lia.
Qed.

Section FieldProcess.

Variable cfg : config.
Variable w : FieldPipeline.world.

(** An empty query result ends the field pipeline with a [ValueError]
    before any correction is tried, whatever the configuration. *)
Lemma process_empty_query (df : table) :
  FieldPipeline.connect w = Ok tt ->
  FieldPipeline.read_sql w = Ok df ->
  Shape.empty df = true ->
  FieldPipeline.process cfg w = Raise ValueError.
Proof.
  intros Hc Hr He. unfold FieldPipeline.process, FieldPipeline.ingest_sql_data.
  unfold DataIngestion.create_db_engine, DataIngestion.query_data.
  rewrite Hc, Hr. simpl. now rewrite He.
Qed.

End FieldProcess.

Lemma has_column_drop (T : table) (n : string) :
  has_column (Shape.drop T n) n = false.
Proof.
  apply select_nil. unfold select, Shape.drop.
  induction T as [|[k c] T IH]; simpl; [reflexivity|].
  destruct (String.eqb k n) eqn:E; simpl; [exact IH|].
  rewrite E. exact IH.
Qed.

Lemma select_drop_other (T : table) (n n' : string) :
  n' <> n -> select (Shape.drop T n) n' = select T n'.
Proof.
  intros Hn. unfold select, Shape.drop.
  induction T as [|[k c] T IH]; simpl; [reflexivity|].
  destruct (String.eqb k n) eqn:E; simpl.
  - apply String.eqb_eq in E. subst k.
    apply String.eqb_neq in Hn. rewrite String.eqb_sym, Hn. exact IH.
  - destruct (String.eqb k n'); simpl; now rewrite IH.
Qed.

(** The table [process] returns is the corrected survey table merged
    with the station mapping, minus every column labelled "Unnamed: 0":
    the result never has such a column, and every other column of the
    merge is in it as merged.  The table that reaches the merge is the
    one [rename_columns] and [apply_corrections] give on a non-empty
    query result. *)
Theorem field_process_result (cfg : config) (w : FieldPipeline.world)
    (out : table) :
  FieldPipeline.process cfg w = Ok out ->
  exists df corrected mapping merged,
    FieldPipeline.read_sql w = Ok df /\ Shape.empty df = false /\
    correct cfg df = Ok corrected /\
    FieldPipeline.read_csv w = Ok mapping /\
    FieldPipeline.merge_left w corrected mapping = Ok merged /\
    has_column out "Unnamed: 0" = false /\
    (forall n, n <> "Unnamed: 0" -> select out n = select merged n).
Proof.
  unfold FieldPipeline.process, FieldPipeline.ingest_sql_data,
    FieldPipeline.weather_station_mapping, DataIngestion.create_db_engine,
    DataIngestion.query_data, DataIngestion.read_from_web_CSV.
  destruct (FieldPipeline.connect w) as [[]|e]; simpl; [|discriminate].
  destruct (FieldPipeline.read_sql w) as [df|e]; simpl; [|discriminate].
  destruct (Shape.empty df) eqn:He; simpl; [discriminate|].
  destruct (rename_columns cfg df) as [df1|e] eqn:H1; simpl; [|discriminate].
  destruct (apply_corrections cfg df1 "Crop_type" "Elevation") as [df2|e] eqn:H2;
    simpl; [|discriminate].
  destruct (FieldPipeline.read_csv w) as [mapping|e]; simpl; [|discriminate].
  destruct (FieldPipeline.merge_left w df2 mapping) as [merged|e] eqn:Hm;
    simpl; [|discriminate].
  intros H. injection H as <-.
  exists df, df2, mapping, merged.
  split; [reflexivity|]. split; [exact He|].
  split; [unfold correct; rewrite H1; exact H2|].
  split; [reflexivity|]. split; [exact Hm|]. split.
  - destruct (has_column merged "Unnamed: 0") eqn:E;
      [apply has_column_drop | exact E].
  - intros n Hn. destruct (has_column merged "Unnamed: 0");
      [now apply select_drop_other | reflexivity].
Qed.

Lemma field_process_result_witness :
  let w := {| FieldPipeline.connect := Ok tt;
              FieldPipeline.read_sql := Ok ScenarioA.survey;
              FieldPipeline.read_csv := Ok [("Unnamed: 0", [VNum 0]);
                                            ("Field_ID", [VText "F1"]);
                                            ("Weather_station", [VNum 4])];
              FieldPipeline.merge_left :=
                fun l r => Ok (l ++ Shape.drop r "Field_ID") |} in
  exists out,
    FieldPipeline.process ScenarioA.cfg w = Ok out /\
    has_column out "Unnamed: 0" = false /\
    select out "Weather_station" = [[VNum 4]].
Proof.
  intros w. eexists. split; [vm_compute; reflexivity|].
  destruct (field_process_result ScenarioA.cfg w
              [("Field_ID", [VText "F1"]); ("Annual_yield", [VNum 150]);
               ("Crop_type", [VText "cassava"]); ("Elevation", [VNum (123 # 10)]);
               ("Weather_station", [VNum 4])])
    as (df & corrected & mapping & merged & _ & _ & _ & _ & _ & Hu & _).
  - vm_compute. reflexivity.
  - split; [exact Hu | reflexivity].
Defined.

(** *** The shared logger *)

Import Logging.

Lemma initialize_keeps_disabled (lvl : string) (lg : logger) :
  disabled lg = true -> disabled (initialize_logging lvl lg) = true.
Proof.
  intros H. unfold initialize_logging.
  destruct (String.eqb (upper lvl) "DEBUG"); [exact H|].
  destruct (String.eqb (upper lvl) "INFO"); [exact H|].
  destruct (String.eqb (upper lvl) "NONE"); [reflexivity | exact H].
Qed.

Lemma initialize_handlers (lvl : string) (lg : logger) :
  (length (handlers lg) <= 1)%nat ->
  (length (handlers (initialize_logging lvl lg)) <= 1)%nat.
Proof.
  intros H. unfold initialize_logging.
  destruct (String.eqb (upper lvl) "DEBUG");
    [simpl; destruct (handlers lg); simpl in *; lia|].
  destruct (String.eqb (upper lvl) "INFO");
    [simpl; destruct (handlers lg); simpl in *; lia|].
  destruct (String.eqb (upper lvl) "NONE"); [exact H|].
  simpl; destruct (handlers lg); simpl in *; lia.
Qed.

Lemma initialize_no_propagate (lvl : string) (lg : logger) :
  propagate (initialize_logging lvl lg) = false.
Proof.
  unfold initialize_logging.
  destruct (String.eqb (upper lvl) "DEBUG"); [reflexivity|].
  destruct (String.eqb (upper lvl) "INFO"); [reflexivity|].
  destruct (String.eqb (upper lvl) "NONE"); reflexivity.
Qed.

Lemma after_all_app (l1 l2 : list string) (lg : logger) :
  after_all (l1 ++ l2) lg = after_all l2 (after_all l1 lg).
Proof. unfold after_all. apply fold_left_app. Qed.

Lemma after_all_cons (l : string) (ls : list string) (lg : logger) :
  after_all (l :: ls) lg = after_all ls (initialize_logging l lg).
Proof. reflexivity. Qed.

Lemma after_all_keeps_disabled (levels : list string) (lg : logger) :
  disabled lg = true -> disabled (after_all levels lg) = true.
Proof.
  revert lg. induction levels as [|l levels IH]; intros lg H; [exact H|].
  rewrite after_all_cons. apply IH. now apply initialize_keeps_disabled.
Qed.

Lemma after_all_handlers (levels : list string) (lg : logger) :
  (length (handlers lg) <= 1)%nat ->
  (length (handlers (after_all levels lg)) <= 1)%nat.
Proof.
  revert lg. induction levels as [|l levels IH]; intros lg H; [exact H|].
  rewrite after_all_cons. apply IH. now apply initialize_handlers.
Qed.

Lemma after_all_no_propagate (levels : list string) (lg : logger) :
  propagate lg = false -> propagate (after_all levels lg) = false.
Proof.
  revert lg. induction levels as [|l levels IH]; intros lg H; [exact H|].
  rewrite after_all_cons. apply IH. apply initialize_no_propagate.
Qed.

(** The logger of a class is shared by its processors, and nothing in
    [initialize_logging] ever clears [disabled]: once one processor was
    built with a level that upper-cases to "NONE", the logger stays
    disabled whatever levels later processors ask for.  However many
    processors are built, the logger never gets a second handler, and it
    does not propagate. *)
Theorem logging_none_is_sticky (before after : list string) (lvl : string) :
  upper lvl = "NONE" ->
  let lg := after_all (before ++ lvl :: after) fresh in
  disabled lg = true /\
  (length (handlers lg) <= 1)%nat /\
  propagate lg = false.
Proof.
  intros Hl lg. unfold lg. split; [|split].
  - rewrite after_all_app, after_all_cons.
    apply after_all_keeps_disabled.
    unfold initialize_logging. rewrite Hl. reflexivity.
  - apply after_all_handlers. simpl. lia.
  - rewrite after_all_app, after_all_cons.
    apply after_all_no_propagate. apply initialize_no_propagate.
Qed.

Lemma logging_none_is_sticky_witness :
  let lg := after_all ["INFO"; "none"; "DEBUG"; "info"] fresh in
  disabled lg = true /\
  (length (handlers lg) <= 1)%nat /\
  propagate lg = false.
Proof.
  apply (logging_none_is_sticky ["INFO"] ["DEBUG"; "info"] "none").
  reflexivity.
Defined.

End PipelineExtras.

(** ** Further properties of the weather processor *)

Module WeatherExtras.
Import Frame WeatherDataProcessor FrameFacts WeatherFacts.

(** *** Station column discovery *)

Lemma find_first {A} (f : A -> bool) (l : list A) (x : A) :
  find f l = Some x ->
  f x = true /\
  exists pre post, l = pre ++ x :: post /\ forall a, In a pre -> f a = false.
Proof.
  induction l as [|y l IH]; simpl; [discriminate|].
  destruct (f y) eqn:E.
  - intros H. injection H as <-. split; [exact E|].
    exists [], l. split; [reflexivity | intros a []].
  - intros H. destruct (IH H) as (Hx & pre & post & -> & Hpre).
    split; [exact Hx|]. exists (y :: pre), post. split; [reflexivity|].
    intros a [<- | Ha]; [exact E | now apply Hpre].
Qed.

(** The group-by key of [calculate_means]: the first spelling of
    [possible_names], in that order, that labels a column; when none
    does, the first column of the table, whatever it holds; no key only
    for a table without columns.  The key is always a column of the
    table. *)
Theorem station_column_choice (cols : list string) :
  match station_column_of cols with
  | Some c =>
      In c cols /\
      ((exists pre post,
           possible_names = pre ++ c :: post /\
           forall a, In a pre -> ~ In a cols) \/
       ((forall a, In a possible_names -> ~ In a cols) /\
        hd_error cols = Some c))
  | None => cols = []
  end.
Proof.
  unfold station_column_of.
  destruct (find (fun n => existsb (String.eqb n) cols) possible_names)
    as [c|] eqn:F.
  - apply find_first in F as (Hc & pre & post & E & Hpre).
    apply existsb_eqb_In in Hc. split; [exact Hc|].
    left. exists pre, post. split; [exact E|].
    intros a Ha. apply existsb_eqb_not_In. now apply Hpre.
  - destruct cols as [|c cols]; [reflexivity|].
    split; [now left|]. right. split; [|reflexivity].
    intros a Ha. apply existsb_eqb_not_In.
    exact (find_none _ _ F a Ha).
Qed.

(** The label of the published station data, "Weather_station_ID", is
    none of the accepted spellings: it is the key only as the first
    column. *)
Example station_column_of_published_data :
  station_column_of ["Weather_station_ID"; "Message"] = Some "Weather_station_ID" /\
  station_column_of ["Message"; "Weather_station_ID"] = Some "Message" /\
  station_column_of ["Message"; "Station_ID"; "Station"] = Some "Station".
Proof. repeat split; reflexivity. Qed.

(** *** The loop over the groups *)

(** [extract_measurement] reads the groups from the left: its value is
    the number read from the first group that passes the guard, and it
    raises, with [ValueError], exactly when that first group does not
    read as a number. *)
Theorem first_numeric_first (gs : list (option string)) :
  match first_numeric gs with
  | Ok (Some q) =>
      exists pre g post,
        gs = pre ++ Some g :: post /\
        (forall x, In x pre -> numeric_guard x = false) /\
        numeric_guard (Some g) = true /\
        Text.parse_decimal g = Some q
  | Ok None => forall x, In x gs -> numeric_guard x = false
  | Raise e =>
      e = ValueError /\
      exists pre g post,
        gs = pre ++ Some g :: post /\
        (forall x, In x pre -> numeric_guard x = false) /\
        numeric_guard (Some g) = true /\
        Text.parse_decimal g = None
  end.
Proof.
  induction gs as [|[g|] gs IH]; cbn [first_numeric].
  - intros x [].
  - destruct (numeric_guard (Some g)) eqn:E.
    + unfold py_float. destruct (Text.parse_decimal g) as [q|] eqn:P; cbn [bind].
      * exists [], g, gs. repeat split; try assumption. intros x [].
      * split; [reflexivity|]. exists [], g, gs.
        repeat split; try assumption. intros x [].
    + destruct (first_numeric gs) as [[q|]|e].
      * destruct IH as (pre & g' & post & -> & Hpre & Hg & Hp).
        exists (Some g :: pre), g', post. repeat split; try assumption.
        intros x [<- | Hx]; [exact E | now apply Hpre].
      * intros x [<- | Hx]; [exact E | now apply IH].
      * destruct IH as (-> & pre & g' & post & -> & Hpre & Hg & Hp).
        split; [reflexivity|].
        exists (Some g :: pre), g', post. repeat split; try assumption.
        intros x [<- | Hx]; [exact E | now apply Hpre].
  - assert (E : numeric_guard None = false) by reflexivity.
    destruct (first_numeric gs) as [[q|]|e].
    + destruct IH as (pre & g' & post & -> & Hpre & Hg & Hp).
      exists (None :: pre), g', post. repeat split; try assumption.
      intros x [<- | Hx]; [exact E | now apply Hpre].
    + intros x [<- | Hx]; [exact E | now apply IH].
    + destruct IH as (-> & pre & g' & post & -> & Hpre & Hg & Hp).
      split; [reflexivity|].
      exists (None :: pre), g', post. repeat split; try assumption.
      intros x [<- | Hx]; [exact E | now apply Hpre].
Qed.

End WeatherExtras.

Module ExtractionExtras.
Import Frame WeatherDataProcessor FrameFacts WeatherFacts.

(** *** Tables with one column per label *)

Lemma nodup_select (df : table) (n : string) :
  NoDup (columns df) ->
  select df n = [] \/ exists c, select df n = [c].
Proof.
  unfold columns, select.
  induction df as [|[k c] df IH]; simpl; intros H; [now left|].
  apply NoDup_cons_iff in H as [Hk Hnd].
  destruct (String.eqb_spec k n) as [-> | Hn]; simpl.
  - right. exists c. f_equal.
    change (select df n = []). apply select_nil.
    now apply existsb_eqb_not_In.
  - now apply IH.
Qed.

Lemma nodup_select_present (df : table) (n : string) :
  NoDup (columns df) -> has_column df n = true -> exists c, select df n = [c].
Proof.
  intros Hnd Hc. destruct (nodup_select df n Hnd) as [E | E]; [|exact E].
  apply select_nil in E. congruence.
Qed.

Lemma columns_assign_absent (df : table) (n : string) (c : column) :
  has_column df n = false -> columns (assign df n c) = columns df ++ [n].
Proof.
  intros H. unfold assign. rewrite H. unfold columns. now rewrite map_app.
Qed.

Lemma nodup_assign (df : table) (n : string) (c : column) :
  NoDup (columns df) -> NoDup (columns (assign df n c)).
Proof.
  intros H. destruct (has_column df n) eqn:E.
  - now rewrite columns_assign_present.
  - rewrite columns_assign_absent by exact E.
    apply NoDup_app; [exact H | repeat constructor; intros [] |].
    intros a Ha [<- | []]. apply has_column_In in Ha. congruence.
Qed.

Lemma select_app (T T' : table) (n : string) :
  select (T ++ T') n = select T n ++ select T' n.
Proof. unfold select. now rewrite filter_app, map_app. Qed.

Lemma select_assign_same (df : table) (n : string) (c : column) :
  NoDup (columns df) -> select (assign df n c) n = [c].
Proof.
  intros Hnd. destruct (has_column df n) eqn:E.
  - destruct (nodup_select_present df n Hnd E) as [c0 H0].
    now apply select_assign_single with c0.
  - unfold assign. rewrite E, select_app.
    apply select_nil in E. rewrite E. unfold select. simpl.
    now rewrite String.eqb_refl.
Qed.

Lemma select_assign_diff (df : table) (n n' : string) (c : column) :
  n' <> n -> select (assign df n c) n' = select df n'.
Proof.
  intros Hn. unfold assign. destruct (has_column df n).
  - now apply select_update_other.
  - rewrite select_app. unfold select at 2. simpl.
    apply String.eqb_neq in Hn. rewrite String.eqb_sym, Hn.
    apply app_nil_r.
Qed.

(** *** [process_messages] *)

Lemma process_loop_spec (patterns : dict Regex.regex) (names : list string) :
  forall df df' msgs,
    NoDup (columns df) ->
    select df "Message" = [msgs] ->
    ~ In "Message" names ->
    process_loop patterns names df = Ok df' ->
    NoDup (columns df') /\
    select df' "Message" = [msgs] /\
    (forall k, In k names ->
               exists c, select df' k = [c] /\
                         Forall2 (fun m v => extract_cell patterns k m = Ok v)
                                 msgs c) /\
    (forall n, ~ In n names -> select df' n = select df n).
Proof.
  induction names as [|k0 names IH]; simpl; intros df df' msgs Hnd Hm Hno H.
  - injection H as <-. repeat split; try assumption. intros k [].
  - unfold message_apply in H. rewrite Hm in H.
    destruct (map_result (extract_cell patterns k0) msgs) as [c|e] eqn:Hc;
      simpl in H; [|discriminate].
    assert (Hk0 : "Message" <> k0) by (intros E; apply Hno; now left).
    assert (Hm1 : select (assign df k0 c) "Message" = [msgs])
      by (rewrite select_assign_diff; assumption).
    destruct (IH (assign df k0 c) df' msgs (nodup_assign _ _ _ Hnd) Hm1
                (fun Hin => Hno (or_intror Hin)) H)
      as (Hnd' & Hm' & Hin' & Hout').
    split; [exact Hnd'|]. split; [exact Hm'|]. split.
    + intros k [<- | Hk].
      * destruct (in_dec string_dec k0 names) as [Hi | Hni];
          [now apply Hin'|].
        exists c. split.
        -- rewrite (Hout' k0 Hni). now apply select_assign_same.
        -- now apply map_result_Forall2.
      * now apply Hin'.
    + intros n Hn. rewrite Hout' by (intros Hi; apply Hn; now right).
      apply select_assign_diff. intros ->. apply Hn. now left.
Qed.

(** [process_messages] fills one column per pattern name, row by row and
    each from the message text alone: on a table with one column per
    label and a [Message] column, and with no pattern called "Message",
    the column of a pattern holds, for every row, what
    [extract_measurement] gives on that row's message, so it has as many
    cells as there are messages and does not depend on the other
    patterns having run; the columns that are no pattern name, the
    messages among them, are left as they were. *)
Theorem process_messages_columns (st st' : state) (df : table) (msgs : column) :
  weather_df st = Some df ->
  NoDup (columns df) ->
  select df "Message" = [msgs] ->
  ~ In "Message" (Dict.keys (regex_patterns st)) ->
  process_messages st = Ok st' ->
  exists df',
    weather_df st' = Some df' /\
    regex_patterns st' = regex_patterns st /\
    weather_df_mean st' = weather_df_mean st /\
    NoDup (columns df') /\
    (forall k, In k (Dict.keys (regex_patterns st)) ->
       exists c, select df' k = [c] /\ length c = length msgs /\
                 Forall2 (fun m v => extract_cell (regex_patterns st) k m = Ok v)
                         msgs c) /\
    (forall n, ~ In n (Dict.keys (regex_patterns st)) ->
               select df' n = select df n).
Proof.
  intros Hdf Hnd Hm Hno. unfold process_messages. rewrite Hdf.
  destruct (process_loop (regex_patterns st) (Dict.keys (regex_patterns st)) df)
    as [df'|e] eqn:Hl; simpl; [|discriminate].
  intros H. injection H as <-. exists df'.
  destruct (process_loop_spec _ _ _ _ _ Hnd Hm Hno Hl)
    as (Hnd' & _ & Hin & Hout).
  repeat split; try reflexivity; try assumption.
  intros k Hk. destruct (Hin k Hk) as (c & Hc & HF).
  exists c. split; [exact Hc|]. split; [|exact HF].
  symmetry. exact (Forall2_length HF).
Qed.

Lemma process_messages_columns_witness :
  exists df',
    NoDup (columns df') /\
    (forall k, In k (Dict.keys (ScenarioB.compiled ScenarioB.main_patterns)) ->
       exists c, select df' k = [c] /\ length c = 4%nat) /\
    select df' "Station" = select ScenarioC.readings "Station".
Proof.
  destruct (process_messages_columns
              (set_weather_df
                 (ScenarioB.start (ScenarioB.compiled ScenarioB.main_patterns))
                 ScenarioC.readings)
              {| regex_patterns := ScenarioB.compiled ScenarioB.main_patterns;
                 weather_df := Some ScenarioC.extracted;
                 weather_df_mean := None |}
              ScenarioC.readings
              [VText "Rainfall: 10mm"; VText "sensor offline";
               VText "Rainfall: 20 mm"; VText "sensor offline"])
    as (df' & _ & _ & _ & Hnd & Hin & Hout).
  - reflexivity.
  - repeat constructor; simpl; intuition discriminate.
  - reflexivity.
  - vm_compute. intuition discriminate.
  - vm_compute. reflexivity.
  - exists df'. split; [exact Hnd|]. split.
    + intros k Hk. destruct (Hin k Hk) as (c & Hc & Hl & _). now exists c.
    + apply Hout. vm_compute. intuition discriminate.
Defined.

End ExtractionExtras.

Module AggregationExtras.
Import Frame WeatherDataProcessor FrameFacts WeatherFacts ExtractionExtras.

(** [process_messages] at its edges: without a loaded table it does
    nothing and raises nothing; without patterns it leaves the table as
    it is, [Message] column or not; with a pattern and no [Message]
    column it raises [KeyError] on "Message". *)
Theorem process_messages_edges (st : state) :
  (weather_df st = None -> process_messages st = Ok st) /\
  (forall df, weather_df st = Some df -> regex_patterns st = [] ->
              process_messages st = Ok st) /\
  (forall df, weather_df st = Some df -> regex_patterns st <> [] ->
              select df "Message" = [] ->
              process_messages st = Raise (KeyError "Message")).
Proof.
  unfold process_messages. split; [|split].
  - intros H. now rewrite H.
  - intros df H Hp. rewrite H, Hp. simpl.
    destruct st as [ps w m]. simpl in *. subst. reflexivity.
  - intros df H Hp Hm. rewrite H.
    destruct (regex_patterns st) as [|[k r] ps]; [congruence|].
    simpl. unfold message_apply. now rewrite Hm.
Qed.

Lemma process_messages_edges_witness :
  process_messages
    {| regex_patterns := ScenarioB.compiled ScenarioB.main_patterns;
       weather_df := Some [("Station", [VText "A"])];
       weather_df_mean := None |}
  = Raise (KeyError "Message").
Proof.
  apply (proj2 (proj2 (process_messages_edges
                         {| regex_patterns :=
                              ScenarioB.compiled ScenarioB.main_patterns;
                            weather_df := Some [("Station", [VText "A"])];
                            weather_df_mean := None |}))
           [("Station", [VText "A"])]).
  - reflexivity.
  - vm_compute. discriminate.
  - reflexivity.
Defined.

(** *** When [calculate_means] has nothing to aggregate *)

Lemma measurement_columns_none (df : table) (names : list string) :
  (forall name, In name names -> has_column df name = true ->
                exists c, select df name = [c] /\ existsb notna c = false) ->
  measurement_columns_of df names = Ok [].
Proof.
  induction names as [|n names IH]; simpl; intros H; [reflexivity|].
  assert (IH' : measurement_columns_of df names = Ok [])
    by (apply IH; intros name Hin; apply H; now right).
  destruct (has_column df n) eqn:E; [|exact IH'].
  destruct (H n (or_introl eq_refl) E) as (c & Hc & Hd).
  unfold has_data. rewrite Hc. simpl. rewrite IH'. simpl. now rewrite Hd.
Qed.

(** When no pattern name labels a column with a non-null cell (before
    [process_messages] has run, or when no message matched any pattern),
    [calculate_means] ends normally and changes nothing:
    [weather_df_mean] keeps the value it had. *)
Theorem calculate_means_nothing_to_aggregate (st : state) (df : table) :
  weather_df st = Some df ->
  (forall name, In name (Dict.keys (regex_patterns st)) ->
                has_column df name = true ->
                exists c, select df name = [c] /\ existsb notna c = false) ->
  calculate_means st = Ok st.
Proof.
  intros Hdf H. unfold calculate_means, calculate_means_body. rewrite Hdf.
  now rewrite (measurement_columns_none df _ H).
Qed.

Lemma calculate_means_nothing_to_aggregate_witness :
  let st := {| regex_patterns := ScenarioB.compiled ScenarioB.main_patterns;
               weather_df := Some ScenarioC.readings;
               weather_df_mean := None |} in
  calculate_means st = Ok st.
Proof.
  intros st.
  apply (calculate_means_nothing_to_aggregate st ScenarioC.readings).
  - reflexivity.
  - intros name Hin Hc. vm_compute in Hin.
    destruct Hin as [<- | [<- | [<- | []]]]; vm_compute in Hc; discriminate.
Defined.

(** *** When [calculate_means] does aggregate *)

Lemma map_result_ok {A B} (f : A -> result B) (l : list A) :
  (forall x, In x l -> exists y, f x = Ok y) ->
  exists l', map_result f l = Ok l'.
Proof.
  induction l as [|a l IH]; simpl; intros H; [now exists []|].
  destruct (H a (or_introl eq_refl)) as [b Hb].
  destruct IH as [bs Hbs]; [intros x Hx; apply H; now right|].
  rewrite Hb, Hbs. simpl. now exists (b :: bs).
Qed.

Lemma measurement_columns_total (df : table) (names : list string) :
  NoDup (columns df) -> exists ms, measurement_columns_of df names = Ok ms.
Proof.
  intros Hnd. induction names as [|n names [ms IH]]; simpl; [now exists []|].
  destruct (has_column df n) eqn:E; [|now exists ms].
  destruct (nodup_select_present df n Hnd E) as [c Hc].
  unfold has_data. rewrite Hc. simpl. rewrite IH. simpl. now eexists.
Qed.

Lemma group_cells_subset (station c : column) (k v : value) :
  In v (group_cells station c k) -> In v c.
Proof.
  unfold group_cells. intros H.
  apply in_map_iff in H as ([k' v'] & <- & Hin).
  apply filter_In in Hin as [Hin _]. now apply in_combine_r in Hin.
Qed.

Lemma is_object_subset (c c' : column) :
  (forall v, In v c' -> In v c) -> is_object c = false -> is_object c' = false.
Proof.
  unfold is_object. intros Hsub H.
  destruct (existsb is_text c') eqn:E; [|reflexivity].
  apply existsb_exists in E as (v & Hv & Ht).
  assert (existsb is_text c = true)
    by (apply existsb_exists; exists v; split; [now apply Hsub | exact Ht]).
  congruence.
Qed.

Lemma mean_column_float (station c : column) (keys : list value) :
  is_object c = false -> exists mc, mean_column station c keys = Ok mc.
Proof.
  intros H. unfold mean_column. rewrite H.
  apply map_result_ok. intros k _. unfold mean_cell.
  rewrite (is_object_subset c (group_cells station c k));
    [|apply group_cells_subset | exact H].
  destruct (numbers (group_cells station c k)); now eexists.
Qed.

Lemma station_column_present (cols : list string) :
  cols <> [] -> exists sc, station_column_of cols = Some sc /\ In sc cols.
Proof.
  intros Hne. unfold station_column_of.
  destruct (find (fun n => existsb (String.eqb n) cols) possible_names)
    as [c|] eqn:F.
  - exists c. split; [reflexivity|].
    apply find_some in F as [_ F]. now apply existsb_eqb_In.
  - destruct cols as [|c cols]; [congruence|]. exists c. split; [reflexivity|].
    now left.
Qed.

(** On an extracted table with one column per label, none of them
    labelled by the empty text, whose measurement columns hold no text,
    [calculate_means] does set [weather_df_mean] as soon as one pattern
    name labels a column with a non-null cell. *)
Theorem calculate_means_aggregates (st : state) (df : table) :
  weather_df st = Some df ->
  NoDup (columns df) ->
  ~ In "" (columns df) ->
  (forall name c, In name (Dict.keys (regex_patterns st)) ->
                  select df name = [c] -> is_object c = false) ->
  (exists name c, In name (Dict.keys (regex_patterns st)) /\
                  select df name = [c] /\ existsb notna c = true) ->
  exists a,
    calculate_means_body (regex_patterns st) df = Ok (Some a) /\
    calculate_means st = Ok (set_weather_df_mean st a).
Proof.
  intros Hdf Hnd Hne Hfl (name & c & Hin & Hc & Hd).
  assert (Hbody : exists a, calculate_means_body (regex_patterns st) df
                            = Ok (Some a)).
  { unfold calculate_means_body.
    destruct (measurement_columns_total df (Dict.keys (regex_patterns st)) Hnd)
      as [ms Hms].
    rewrite Hms. simpl.
    pose proof (measurement_columns_exact _ _ _ Hms) as Hex.
    assert (Hname : In name ms) by (apply Hex; split; [exact Hin | now exists c]).
    destruct ms as [|m0 ms']; [destruct Hname|].
    destruct (station_column_present (columns df)) as (sc & Hst & Hsc).
    { apply FieldExtras.select_single_has in Hc. apply has_column_In in Hc.
      intros E. rewrite E in Hc. destruct Hc. }
    rewrite Hst.
    assert (Hsc' : has_column df sc = true) by now apply has_column_In.
    assert (Hnz : String.eqb sc "" = false).
    { apply String.eqb_neq. intros ->. now apply Hne. }
    rewrite Hnz, Hsc'. simpl.
    destruct (nodup_select_present df sc Hnd Hsc') as [station Hs].
    unfold groupby_mean. rewrite Hs.
    match goal with
    | |- context [map_result ?f (m0 :: ms')] =>
        destruct (map_result_ok f (m0 :: ms')) as [cols Hcols]
    end.
    - intros n Hn. apply Hex in Hn as (Hk & cn & Hcn & _).
      rewrite Hcn.
      destruct (mean_column_float station cn (group_keys station)
                  (Hfl n cn Hk Hcn)) as [mc Hmc].
      rewrite Hmc. simpl. now eexists.
    - rewrite Hcols. simpl. now eexists. }
  destruct Hbody as [a Ha]. exists a. split; [exact Ha|].
  unfold calculate_means. now rewrite Hdf, Ha.
Qed.

Lemma calculate_means_aggregates_witness :
  let st := {| regex_patterns := ScenarioB.compiled ScenarioB.main_patterns;
               weather_df := Some ScenarioC.extracted;
               weather_df_mean := None |} in
  exists a,
    calculate_means_body (regex_patterns st) ScenarioC.extracted = Ok (Some a) /\
    calculate_means st = Ok (set_weather_df_mean st a).
Proof.
  intros st. apply (calculate_means_aggregates st ScenarioC.extracted).
  - reflexivity.
  - repeat constructor; simpl; intuition discriminate.
  - simpl. intuition discriminate.
  - intros name c Hin Hc. vm_compute in Hin.
    destruct Hin as [<- | [<- | [<- | []]]]; vm_compute in Hc;
      injection Hc as <-; reflexivity.
  - exists "Rainfall", [VNum 10; VNull; VNum 20; VNull].
    split; [vm_compute; tauto|]. split; reflexivity.
Defined.

End AggregationExtras.

(** ** What the matcher captures *)

Module RegexFacts.
Import Regex RegexSem.

Section Sound.

Variable P : nat -> list ascii -> Prop.

Lemma star_sound (L : list ascii -> Prop)
    (step : list ascii -> caps -> cont -> option caps) :
  RegexSem.sound_step P L step ->
  forall fuel,
    RegexSem.sound_step P (fun t => exists ts, t = concat ts /\ Forall L ts)
               (star step fuel).
Proof.
  intros Hstep fuel. induction fuel as [|n IH]; intros s c k c' Hc H; simpl in H.
  - exists [], s, c. repeat split; try assumption.
    exists []. split; [reflexivity | constructor].
  - destruct (step s c _) as [c0|] eqn:E.
    + injection H as ->.
      destruct (Hstep _ _ _ _ Hc E) as (pre & s1 & c1 & -> & Hpre & Hc1 & Hk).
      destruct (length s1 <? length (pre ++ s1))%nat; [|discriminate].
      destruct (IH _ _ _ _ Hc1 Hk)
        as (pre2 & s2 & c2 & -> & (ts & -> & Hts) & Hc2 & Hk2).
      exists (pre ++ concat ts), s2, c2.
      split; [now rewrite app_assoc|]. split; [|now split].
      exists (pre :: ts). split; [reflexivity | now constructor].
    + exists [], s, c. repeat split; try assumption.
      exists []. split; [reflexivity | constructor].
Qed.

Lemma firstn_consumed {A} (pre s1 : list A) :
  firstn (length (pre ++ s1) - length s1) (pre ++ s1) = pre.
Proof.
  rewrite length_app.
  replace (length pre + length s1 - length s1)%nat with (length pre) by lia.
  rewrite firstn_app, Nat.sub_diag, firstn_all. simpl. apply app_nil_r.
Qed.

Lemma run_sound (r : regex) : groups_ok P r -> RegexSem.sound_step P (lang r) (run r).
Proof.
  induction r as [| a | r1 IH1 r2 IH2 | r1 IH1 r2 IH2 | r1 IH | r1 IH
                 | r1 IH | n r1 IH];
    simpl; intros G s c k c' Hc H.
  - exists [], s, c. now repeat split.
  - destruct s as [|x s]; [discriminate|].
    destruct (atom_matches a x) eqn:E; [|discriminate].
    exists [x], s, c. repeat split; try assumption. now exists x.
  - destruct G as [G1 G2].
    destruct (IH1 G1 _ _ _ _ Hc H) as (p1 & s1 & c1 & -> & L1 & Hc1 & H1).
    destruct (IH2 G2 _ _ _ _ Hc1 H1) as (p2 & s2 & c2 & -> & L2 & Hc2 & H2).
    exists (p1 ++ p2), s2, c2. split; [now rewrite app_assoc|].
    split; [now exists p1, p2 | now split].
  - destruct G as [G1 G2].
    destruct (run r1 s c k) as [c0|] eqn:E.
    + injection H as ->.
      destruct (IH1 G1 _ _ _ _ Hc E) as (p & s1 & c1 & -> & L & Hc1 & H1).
      exists p, s1, c1. repeat split; try assumption. now left.
    + destruct (IH2 G2 _ _ _ _ Hc H) as (p & s1 & c1 & -> & L & Hc1 & H1).
      exists p, s1, c1. repeat split; try assumption. now right.
  - exact (star_sound _ _ (IH G) _ _ _ _ _ Hc H).
  - destruct (IH G _ _ _ _ Hc H) as (p1 & s1 & c1 & -> & L1 & Hc1 & H1).
    destruct (star_sound _ _ (IH G) _ _ _ _ _ Hc1 H1)
      as (p2 & s2 & c2 & -> & (ts & -> & Hts) & Hc2 & H2).
    exists (p1 ++ concat ts), s2, c2. split; [now rewrite app_assoc|].
    split; [now exists p1, ts | now split].
  - destruct (run r1 s c k) as [c0|] eqn:E.
    + injection H as ->.
      destruct (IH G _ _ _ _ Hc E) as (p & s1 & c1 & -> & L & Hc1 & H1).
      exists p, s1, c1. repeat split; try assumption. now right.
    + exists [], s, c. repeat split; try assumption. now left.
  - destruct G as [Gn G].
    destruct (IH G _ _ _ _ Hc H) as (p & s1 & c1 & -> & L & Hc1 & H1).
    rewrite firstn_consumed in H1.
    exists p, s1, ((n, p) :: c1). repeat split; try assumption.
    intros m t Hm. simpl in Hm.
    destruct (Nat.eqb_spec n m) as [<- | Hn].
    + injection Hm as <-. now apply Gn.
    + now apply Hc1.
Qed.

Lemma search_from_sound (r : regex) (s : list ascii) (c : caps) :
  groups_ok P r -> search_from r s = Some c -> caps_ok P c.
Proof.
  intros G. induction s as [|x s IH]; simpl; intros H.
  - destruct (run r [] [] _) as [c0|] eqn:E; [|discriminate].
    injection H as ->.
    assert (H0 : caps_ok P []) by (intros n t Hn; discriminate).
    destruct (run_sound r G _ _ _ _ H0 E) as (p & s1 & c1 & _ & _ & Hc1 & H1).
    now injection H1 as <-.
  - destruct (run r (x :: s) [] _) as [c0|] eqn:E.
    + injection H as ->.
      assert (H0 : caps_ok P []) by (intros n t Hn; discriminate).
      destruct (run_sound r G _ _ _ _ H0 E) as (p & s1 & c1 & _ & _ & Hc1 & H1).
      now injection H1 as <-.
    + now apply IH.
Qed.

(** Every group [re.search] reports was captured by the group of that
    number, so [P] accepts it. *)
Lemma search_groups (r : regex) (message : string) (gs : list (option string))
    (g : string) :
  groups_ok P r ->
  search r message = Some gs ->
  In (Some g) gs ->
  exists n t, P n t /\ g = string_of_list_ascii t.
Proof.
  intros G H Hin. unfold search in H.
  destruct (search_from r (list_ascii_of_string message)) as [c|] eqn:E;
    [|discriminate].
  injection H as <-. unfold groups in Hin.
  apply in_map_iff in Hin as (n & Hn & _).
  destruct (lookup c n) as [t|] eqn:L; [|discriminate].
  injection Hn as <-. exists n, t. split; [|reflexivity].
  exact (search_from_sound r _ c G E n t L).
Qed.

End Sound.

End RegexFacts.

(** ** Extraction with the patterns of [main] *)

Module MainPatternFacts.
Import Regex RegexSem Shapes MainPatterns WeatherDataProcessor.

Lemma compiled_main_patterns :
  ScenarioB.compile_all ScenarioB.main_patterns = Some patterns /\
  ScenarioB.compiled ScenarioB.main_patterns = patterns.
Proof. split; vm_compute; reflexivity. Qed.

(** *** From the patterns to the shapes *)

Lemma lang_digit_atoms (ts : list (list ascii)) :
  Forall (lang (Atom ADigit)) ts -> forallb Text.is_digit (concat ts) = true.
Proof.
  induction 1 as [|t ts (x & -> & Hx) _ IH]; simpl; [reflexivity|].
  simpl in Hx. now rewrite Hx.
Qed.

Lemma lang_digits1 (t : list ascii) : lang digits1 t -> digits t.
Proof.
  intros (t1 & ts & -> & (x & -> & Hx) & Hts). simpl in Hx. split.
  - discriminate.
  - simpl. rewrite Hx. now apply lang_digit_atoms.
Qed.

Lemma lang_lit (c : ascii) (t : list ascii) : lang (Atom (ALit c)) t -> t = [c].
Proof.
  intros (x & -> & Hx). simpl in Hx. apply Ascii.eqb_eq in Hx. now subst.
Qed.

Lemma lang_fraction (t : list ascii) :
  lang (Seq (Atom (ALit ".")) digits1) t -> fraction t.
Proof.
  intros (t1 & t2 & -> & H1 & H2). apply lang_lit in H1. subst t1.
  exists t2. split; [now apply lang_digits1 | reflexivity].
Qed.

Lemma lang_unsigned (m : nat) (t : list ascii) :
  lang (Seq digits1 (Opt (fraction_group m))) t -> unsigned_decimal t.
Proof.
  intros (t1 & t2 & -> & H1 & H2). apply lang_digits1 in H1.
  exists t1. split; [exact H1|]. destruct H2 as [-> | H2].
  - left. apply app_nil_r.
  - right. apply lang_fraction in H2 as (fp & Hfp & ->). now exists fp.
Qed.

Lemma lang_signed (m : nat) (t : list ascii) :
  lang (Seq (Opt (Atom (ALit "-"))) (Seq digits1 (Opt (fraction_group m)))) t ->
  signed_decimal t.
Proof.
  intros (t1 & t2 & -> & H1 & H2). apply lang_unsigned in H2.
  destruct H1 as [-> | H1].
  - now left.
  - apply lang_lit in H1. subst t1. right. now exists t2.
Qed.

Lemma groups_ok_literal (P : nat -> list ascii -> Prop) (s : string) (k : regex) :
  groups_ok P k -> groups_ok P (literal s k).
Proof.
  unfold literal. intros H.
  induction (list_ascii_of_string s) as [|c l IH]; simpl; [exact H | now split].
Qed.

Lemma groups_ok_number : groups_ok unsigned_groups (number 1 2).
Proof.
  simpl. split; [intros t; apply (lang_unsigned 2)|].
  split; [exact I|]. split; [intros t; apply lang_fraction | repeat split].
Qed.

Lemma groups_ok_rainfall : groups_ok unsigned_groups rainfall.
Proof.
  split; [exact groups_ok_number|]. simpl. repeat split.
Qed.

Lemma groups_ok_temperature : groups_ok unsigned_groups temperature.
Proof.
  split; [exact groups_ok_number|]. simpl. repeat split.
Qed.

Lemma groups_ok_signed_number (n m : nat) :
  signed_groups n = signed_decimal -> signed_groups m = fraction ->
  groups_ok signed_groups (Seq (Star (Atom ASpace)) (signed_number n m)).
Proof.
  intros Hn Hm. simpl. rewrite Hn, Hm.
  split; [exact I|]. split; [intros t; apply (lang_signed m)|].
  split; [exact I|]. split; [exact I|].
  split; [intros t; apply lang_fraction | repeat split].
Qed.

Lemma groups_ok_pollution : groups_ok signed_groups pollution_level.
Proof.
  split; apply groups_ok_literal; apply groups_ok_signed_number; reflexivity.
Qed.

End MainPatternFacts.

Module DecimalFacts.
Import Text Shapes.

Lemma is_digit_not_space (c : ascii) : is_digit c = true -> is_space c = false.
Proof.
  destruct c as [b0 b1 b2 b3 b4 b5 b6 b7];
    destruct b0, b1, b2, b3, b4, b5, b6, b7; intros H;
    try reflexivity; discriminate H.
Qed.

Lemma lstrip_solid (t : list ascii) : solid t -> lstrip t = t.
Proof.
  destruct t as [|c t]; intros H; simpl; [reflexivity|].
  now rewrite (H c (or_introl eq_refl)).
Qed.

Lemma strip_chars_solid (t : list ascii) : solid t -> strip_chars t = t.
Proof.
  intros H. unfold strip_chars, rstrip. rewrite (lstrip_solid t H).
  rewrite lstrip_solid; [apply rev_involutive|].
  intros c Hc. apply H. now apply in_rev.
Qed.

Lemma digits_solid (t : list ascii) : forallb is_digit t = true -> solid t.
Proof.
  intros H c Hc. apply is_digit_not_space.
  rewrite forallb_forall in H. now apply H.
Qed.

Lemma span_digits_app (d rest : list ascii) :
  forallb is_digit d = true ->
  span_digits (d ++ rest) = (d ++ fst (span_digits rest), snd (span_digits rest)).
Proof.
  induction d as [|c d IH]; simpl; intros H.
  - now destruct (span_digits rest).
  - apply andb_prop in H as [Hc Hd]. rewrite Hc, (IH Hd). reflexivity.
Qed.

Lemma span_digits_only (d : list ascii) :
  forallb is_digit d = true -> span_digits d = (d, []).
Proof.
  intros H. rewrite <- (app_nil_r d) at 1.
  rewrite (span_digits_app d [] H). simpl. now rewrite app_nil_r.
Qed.

Lemma span_digits_dot (d fp : list ascii) :
  forallb is_digit d = true ->
  span_digits (d ++ "."%char :: fp) = (d, "."%char :: fp).
Proof.
  intros H. rewrite (span_digits_app _ _ H). simpl. now rewrite app_nil_r.
Qed.

Lemma digits_val_from (l : list ascii) (acc : Z) :
  (0 <= acc)%Z ->
  (0 <= fold_left (fun a c => 10 * a + digit_val c) l acc)%Z.
Proof.
  revert acc. induction l as [|c l IH]; cbn [fold_left]; intros acc H;
    [exact H|].
  apply IH. unfold digit_val.
  pose proof (Nat2Z.is_nonneg (nat_of_ascii c - 48)). lia.
Qed.

Lemma digits_val_nonneg (l : list ascii) : (0 <= digits_val l)%Z.
Proof. apply digits_val_from. lia. Qed.

Lemma Qred_nonneg (z : Z) (p : positive) : (0 <= z)%Z -> (0 <= Qred (z # p))%Q.
Proof.
  intros H. rewrite Qred_correct. unfold Qle. simpl. lia.
Qed.

Lemma is_nil_false {A} (l : list A) : l <> [] -> is_nil l = false.
Proof. destruct l; [congruence | reflexivity]. Qed.

Lemma parse_unsigned_decimal (t : list ascii) :
  unsigned_decimal t -> exists q, parse_unsigned t = Some q /\ (0 <= q)%Q.
Proof.
  intros (ip & [Hne Hd] & [-> | (fp & [Hfne Hfd] & ->)]); unfold parse_unsigned.
  - rewrite (span_digits_only ip Hd). rewrite (is_nil_false ip Hne).
    eexists. split; [reflexivity|]. apply Qred_nonneg, digits_val_nonneg.
  - rewrite (span_digits_dot ip fp Hd). simpl.
    rewrite (span_digits_only fp Hfd). simpl.
    rewrite (is_nil_false ip Hne). simpl.
    eexists. split; [reflexivity|]. apply Qred_nonneg, digits_val_nonneg.
Qed.

Lemma parse_fraction (t : list ascii) :
  fraction t -> exists q, parse_unsigned t = Some q /\ (0 <= q)%Q.
Proof.
  intros (fp & [Hfne Hfd] & ->). unfold parse_unsigned. simpl.
  rewrite (span_digits_only fp Hfd). simpl.
  rewrite (is_nil_false fp Hfne). simpl.
  eexists. split; [reflexivity|]. apply Qred_nonneg, digits_val_nonneg.
Qed.

Lemma unsigned_head (t : list ascii) :
  unsigned_decimal t -> exists c t', t = c :: t' /\ is_digit c = true.
Proof.
  intros (ip & [Hne Hd] & Ht).
  destruct ip as [|c ip]; [congruence|]. simpl in Hd.
  apply andb_prop in Hd as [Hc _].
  destruct Ht as [-> | (fp & _ & ->)]; now eexists _, _.
Qed.

Lemma unsigned_solid (t : list ascii) : unsigned_decimal t -> solid t.
Proof.
  intros (ip & [_ Hd] & [-> | (fp & [_ Hfd] & ->)]).
  - now apply digits_solid.
  - intros c Hc. apply in_app_or in Hc as [Hc | [<- | Hc]].
    + now apply (digits_solid ip).
    + reflexivity.
    + now apply (digits_solid fp).
Qed.

Lemma digit_not_sign (c : ascii) :
  is_digit c = true ->
  Ascii.eqb c "-"%char = false /\ Ascii.eqb c "+"%char = false.
Proof.
  destruct c as [b0 b1 b2 b3 b4 b5 b6 b7];
    destruct b0, b1, b2, b3, b4, b5, b6, b7; intros H;
    try (split; reflexivity); discriminate H.
Qed.

Lemma parse_signed_unsigned (t : list ascii) :
  unsigned_decimal t -> parse_signed t = parse_unsigned t.
Proof.
  intros H. destruct (unsigned_head t H) as (c & t' & -> & Hc).
  destruct (digit_not_sign c Hc) as [H1 H2].
  unfold parse_signed. now rewrite H1, H2.
Qed.

(** What [float] reads from each shape. *)
Lemma decimal_of_unsigned (t : list ascii) :
  unsigned_decimal t ->
  exists q, parse_decimal (string_of_list_ascii t) = Some q /\ (0 <= q)%Q.
Proof.
  intros H. unfold parse_decimal.
  rewrite list_ascii_of_string_of_list_ascii.
  rewrite (strip_chars_solid t (unsigned_solid t H)).
  rewrite (parse_signed_unsigned t H). now apply parse_unsigned_decimal.
Qed.

Lemma decimal_of_fraction (t : list ascii) :
  fraction t ->
  exists q, parse_decimal (string_of_list_ascii t) = Some q /\ (0 <= q)%Q.
Proof.
  intros H. unfold parse_decimal.
  rewrite list_ascii_of_string_of_list_ascii.
  destruct (parse_fraction t H) as (q & Hq & Hpos).
  destruct H as (fp & [_ Hfd] & ->).
  rewrite strip_chars_solid.
  - exists q. split; [exact Hq | exact Hpos].
  - intros c [<- | Hc]; [reflexivity | now apply (digits_solid fp)].
Qed.

Lemma decimal_of_signed (t : list ascii) :
  signed_decimal t ->
  exists q, parse_decimal (string_of_list_ascii t) = Some q.
Proof.
  intros [H | (u & Hu & ->)].
  - destruct (decimal_of_unsigned t H) as (q & Hq & _). now exists q.
  - unfold parse_decimal. rewrite list_ascii_of_string_of_list_ascii.
    rewrite strip_chars_solid.
    + simpl. destruct (parse_unsigned_decimal u Hu) as (q & Hq & _).
      rewrite Hq. simpl. now eexists.
    + intros c [<- | Hc]; [reflexivity | now apply (unsigned_solid u)].
Qed.

End DecimalFacts.

Module MainPatternExtras.
Import Frame Regex RegexSem Shapes MainPatterns WeatherDataProcessor.
Import FrameFacts MainPatternFacts DecimalFacts ExtractionExtras.

Lemma unsigned_groups_parse (n : nat) (t : list ascii) :
  unsigned_groups n t ->
  exists q, Text.parse_decimal (string_of_list_ascii t) = Some q /\ (0 <= q)%Q.
Proof.
  destruct n as [|[|n]]; simpl; intros H;
    try (now apply decimal_of_fraction). now apply decimal_of_unsigned.
Qed.

Lemma signed_groups_parse (n : nat) (t : list ascii) :
  signed_groups n t ->
  exists q, Text.parse_decimal (string_of_list_ascii t) = Some q.
Proof.
  assert (F : fraction t -> exists q,
                Text.parse_decimal (string_of_list_ascii t) = Some q).
  { intros H. destruct (decimal_of_fraction t H) as (q & Hq & _). now exists q. }
  destruct n as [|[|[|[|n]]]]; simpl; intros H;
    try (now apply F); now apply decimal_of_signed.
Qed.

Lemma first_numeric_source (gs : list (option string)) (q : Q) :
  first_numeric gs = Ok (Some q) ->
  exists g, In (Some g) gs /\ Text.parse_decimal g = Some q.
Proof.
  induction gs as [|[g|] gs IH]; cbn [first_numeric]; intros H.
  - discriminate.
  - destruct (numeric_guard (Some g)).
    + unfold py_float in H.
      destruct (Text.parse_decimal g) as [q'|] eqn:P; cbn [bind] in H;
        [|discriminate].
      injection H as <-. exists g. split; [now left | exact P].
    + destruct (IH H) as (g' & Hin & Hp). exists g'. split; [now right | exact Hp].
  - destruct (IH H) as (g' & Hin & Hp). exists g'. split; [now right | exact Hp].
Qed.

(** The name of a pattern of [main], or none of them. *)
Lemma patterns_get (name : string) :
  (name = "Rainfall" /\ Dict.get patterns name = Some rainfall) \/
  (name = "Temperature" /\ Dict.get patterns name = Some temperature) \/
  (name = "Pollution_level" /\ Dict.get patterns name = Some pollution_level) \/
  Dict.get patterns name = None.
Proof.
  unfold patterns. cbn [Dict.get].
  destruct (String.eqb_spec "Rainfall" name) as [<- | _]; [now left|].
  destruct (String.eqb_spec "Temperature" name) as [<- | _];
    [right; now left|].
  destruct (String.eqb_spec "Pollution_level" name) as [<- | _];
    [right; right; now left|].
  now repeat right.
Qed.

Lemma extract_unsigned (r : regex) (name message : string) :
  groups_ok unsigned_groups r ->
  Dict.get patterns name = Some r ->
  (exists v, extract_measurement patterns message name = Ok v) /\
  (forall q, extract_measurement patterns message name = Ok (Some q) ->
             (0 <= q)%Q).
Proof.
  intros G Hget. unfold extract_measurement. rewrite Hget.
  destruct (search r message) as [gs|] eqn:S.
  - split.
    + apply WeatherClaims.first_numeric_well_formed. intros g Hin _.
      destruct (RegexFacts.search_groups _ r message gs g G S Hin)
        as (n & t & Hp & ->).
      destruct (unsigned_groups_parse n t Hp) as (q & Hq & _). congruence.
    + intros q H. apply first_numeric_source in H as (g & Hin & Hg).
      destruct (RegexFacts.search_groups _ r message gs g G S Hin)
        as (n & t & Hp & ->).
      destruct (unsigned_groups_parse n t Hp) as (q' & Hq & Hpos). congruence.
  - split; [now exists None | discriminate].
Qed.

Lemma extract_signed (r : regex) (name message : string) :
  groups_ok signed_groups r ->
  Dict.get patterns name = Some r ->
  exists v, extract_measurement patterns message name = Ok v.
Proof.
  intros G Hget. unfold extract_measurement. rewrite Hget.
  destruct (search r message) as [gs|] eqn:S; [|now exists None].
  apply WeatherClaims.first_numeric_well_formed. intros g Hin _.
  destruct (RegexFacts.search_groups _ r message gs g G S Hin)
    as (n & t & Hp & ->).
  destruct (signed_groups_parse n t Hp) as (q & Hq). congruence.
Qed.

Lemma main_extract_total (message name : string) :
  exists v, extract_measurement patterns message name = Ok v.
Proof.
  destruct (patterns_get name) as [[-> H] | [[-> H] | [[-> H] | H]]].
  - exact (proj1 (extract_unsigned _ _ message groups_ok_rainfall H)).
  - exact (proj1 (extract_unsigned _ _ message groups_ok_temperature H)).
  - exact (extract_signed _ _ message groups_ok_pollution H).
  - unfold extract_measurement. rewrite H. now exists None.
Qed.

(** With the patterns [main] configures, [extract_measurement] never
    raises, whatever the message and the measurement asked for: every
    group these patterns can capture reads as a number. *)
Theorem main_patterns_never_raise (ps : dict regex) (message name : string) :
  ScenarioB.compile_all ScenarioB.main_patterns = Some ps ->
  exists v, extract_measurement ps message name = Ok v.
Proof.
  intros H. rewrite (proj1 compiled_main_patterns) in H. injection H as <-.
  apply main_extract_total.
Qed.

Lemma main_patterns_never_raise_witness :
  exists v,
    extract_measurement patterns
      "Pollution at -3.5, Rainfall: 1.2.3mm" "Pollution_level" = Ok v.
Proof.
  apply (main_patterns_never_raise patterns). vm_compute. reflexivity.
Defined.

(** The Rainfall and Temperature patterns of [main] have no sign in
    their group, so what they extract is never negative: a reading
    written with a minus sign comes out as its absolute value. *)
Theorem main_patterns_unsigned (ps : dict regex) (message name : string) (q : Q) :
  ScenarioB.compile_all ScenarioB.main_patterns = Some ps ->
  name = "Rainfall" \/ name = "Temperature" ->
  extract_measurement ps message name = Ok (Some q) ->
  (0 <= q)%Q.
Proof.
  intros H Hn. rewrite (proj1 compiled_main_patterns) in H. injection H as <-.
  destruct Hn as [-> | ->].
  - apply (extract_unsigned rainfall "Rainfall" message groups_ok_rainfall).
    reflexivity.
  - apply (extract_unsigned temperature "Temperature" message
             groups_ok_temperature).
    reflexivity.
Qed.

Lemma main_patterns_unsigned_witness :
  extract_measurement patterns "Temperature: -5C" "Temperature" = Ok (Some 5%Q)
  /\ (0 <= 5)%Q.
Proof.
  split; [vm_compute; reflexivity|].
  apply (main_patterns_unsigned patterns "Temperature: -5C" "Temperature" 5).
  - vm_compute. reflexivity.
  - now right.
  - vm_compute. reflexivity.
Defined.

(** *** The weather pipeline on main's configuration *)




End MainPatternExtras.

(** ** The buffer name and the swap, once more *)

Module BufferExtras.
Import Frame FieldDataProcessor FrameFacts SwapFacts Reference.

Lemma string_append_assoc (s t u : string) :
  ((s ++ t) ++ u)%string = (s ++ (t ++ u))%string.
Proof. induction s as [|c s IH]; simpl; [reflexivity | now rewrite IH]. Qed.

Lemma string_append_nil (s : string) : (s ++ "")%string = s.
Proof. induction s as [|c s IH]; simpl; [reflexivity | now rewrite IH]. Qed.

Lemma temp_name_loop_candidates (n : nat) :
  forall s cols,
  exists k,
    (k <= n)%nat /\
    temp_name_loop n s cols = (s ++ underscores k)%string /\
    (forall j, (j < k)%nat -> In (s ++ underscores j)%string cols).
Proof.
  induction n as [|n IH]; intros s cols; simpl.
  - exists 0%nat. split; [lia|]. split; [now rewrite string_append_nil|].
    intros j Hj. lia.
  - destruct (existsb (String.eqb s) cols) eqn:E.
    + destruct (IH (s ++ "_")%string cols) as (k & Hk & Hl & Hin).
      assert (Hs : forall u, ((s ++ "_") ++ u)%string
                             = (s ++ String "_" u)%string)
        by (intros u; apply string_append_assoc).
      exists (S k). split; [lia|]. split.
      * rewrite Hl. apply Hs.
      * intros [|j] Hj.
        -- simpl. rewrite string_append_nil. now apply existsb_eqb_In.
        -- simpl. rewrite <- Hs. apply Hin. lia.
    + exists 0%nat. split; [lia|]. split; [now rewrite string_append_nil|].
      intros j Hj. lia.
Qed.

(** The buffer name is the first of "__temp_name_for_swap__",
    "__temp_name_for_swap___", ... that is not a column: every shorter
    candidate is a column, the loop makes at most one iteration per
    column, and running it longer gives the same name. *)
Theorem temp_name_first_free (cols : list string) :
  exists k,
    (k <= length cols)%nat /\
    temp_name_for cols = candidate k /\
    (forall j, (j < k)%nat -> In (candidate j) cols) /\
    ~ In (candidate k) cols /\
    (forall extra,
        temp_name_loop (length cols + extra) "__temp_name_for_swap__" cols
        = candidate k).
Proof.
  destruct (temp_name_loop_candidates (length cols) "__temp_name_for_swap__" cols)
    as (k & Hk & Hl & Hin).
  exists k. split; [exact Hk|]. split; [exact Hl|]. split; [exact Hin|]. split.
  - unfold candidate. rewrite <- Hl. apply temp_name_fresh.
  - intros extra. unfold candidate. rewrite <- Hl.
    apply temp_name_loop_stable. unfold long. apply filter_length_le.
Qed.

(** The two [rename] calls, according to the first name of the pair.
    When it is not the buffer name (so whenever it is a column) the swap
    is the exchange of the two labels, also when the second name is
    absent, which makes it a plain rename.  When it is the buffer name
    itself the two calls undo each other and the table comes back
    unchanged. *)
Theorem swap_columns_by_first_name (cfg : config) (df : table) (a b : string) :
  Dict.first (Dict.keys (columns_to_rename cfg)) = Ok a ->
  Dict.first (Dict.values (columns_to_rename cfg)) = Ok b ->
  (temp_name_for (columns df) <> a ->
   swap_columns cfg df = Ok (relabel (exchange a b) df)) /\
  (temp_name_for (columns df) = a -> swap_columns cfg df = Ok df).
Proof.
  intros Ha Hb.
  assert (Hfresh : forall k c, In (k, c) df -> k <> temp_name_for (columns df)).
  { intros k c Hin ->. apply (temp_name_fresh (columns df)).
    unfold columns. apply in_map_iff.
    now exists (temp_name_for (map fst df), c). }
  unfold swap_columns. rewrite Ha, Hb. simpl. split.
  - intros Hta. f_equal. unfold rename, relabel. rewrite map_map.
    apply map_ext_in. intros [k c] Hin. simpl. f_equal.
    pose proof (Hfresh k c Hin) as Hk.
    revert Hta Hk. generalize (temp_name_for (columns df)).
    intros t Hta Hk. unfold exchange. simpl.
    destruct (String.eqb_spec a b); subst; simpl;
      destruct (String.eqb_spec b k); subst; simpl;
      try (destruct (String.eqb_spec a k); subst; simpl);
      repeat match goal with
             | |- context [String.eqb ?x ?y] =>
                 destruct (String.eqb_spec x y); subst; simpl
             end; congruence.
  - intros Hta. f_equal. unfold rename. rewrite map_map.
    rewrite <- (map_id df) at 2. apply map_ext_in.
    intros [k c] Hin. simpl. f_equal.
    pose proof (Hfresh k c Hin) as Hk.
    revert Hta Hk. generalize (temp_name_for (columns df)).
    intros t Hta Hk. subst t.
    destruct (String.eqb_spec a b); subst; simpl;
      destruct (String.eqb_spec b k); subst; simpl;
      try (destruct (String.eqb_spec a k); subst; simpl);
      repeat match goal with
             | |- context [String.eqb ?x ?y] =>
                 destruct (String.eqb_spec x y); subst; simpl
             end; congruence.
Qed.

Lemma swap_columns_by_first_name_witness :
  swap_columns
    {| columns_to_rename := [("Annual_yield", "Yield")]; values_to_rename := [] |}
    [("Annual_yield", [VNum 3]); ("Elevation", [VNum 1])]
  = Ok [("Yield", [VNum 3]); ("Elevation", [VNum 1])] /\
  swap_columns
    {| columns_to_rename := [("__temp_name_for_swap__", "Crop_type")];
       values_to_rename := [] |}
    [("Crop_type", [VText "tea"])]
  = Ok [("Crop_type", [VText "tea"])].
Proof.
  split.
  - apply (proj1 (swap_columns_by_first_name
                    {| columns_to_rename := [("Annual_yield", "Yield")];
                       values_to_rename := [] |}
                    [("Annual_yield", [VNum 3]); ("Elevation", [VNum 1])]
                    "Annual_yield" "Yield" eq_refl eq_refl)).
    vm_compute. discriminate.
  - apply (proj2 (swap_columns_by_first_name
                    {| columns_to_rename := [("__temp_name_for_swap__", "Crop_type")];
                       values_to_rename := [] |}
                    [("Crop_type", [VText "tea"])]
                    "__temp_name_for_swap__" "Crop_type" eq_refl eq_refl)).
    reflexivity.
Defined.

End BufferExtras.

(** ** The rename step on any pair *)

Module RenameFailure.
Import Frame FieldDataProcessor FrameFacts SwapFacts.

Lemma column_not_buffer (df : table) (k : string) (c : column) :
  In (k, c) df -> k <> temp_name_for (columns df).
Proof.
  intros Hin ->. apply (temp_name_fresh (columns df)).
  unfold columns. apply in_map_iff.
  now exists (temp_name_for (map fst df), c).
Qed.

(** When the first name of the pair is not the buffer name, the two
    [rename] calls exchange the labels, whether or not they are columns. *)
Lemma swap_columns_exchange (cfg : config) (df : table) (a b : string) :
  Dict.first (Dict.keys (columns_to_rename cfg)) = Ok a ->
  Dict.first (Dict.values (columns_to_rename cfg)) = Ok b ->
  temp_name_for (columns df) <> a ->
  swap_columns cfg df = Ok (relabel (exchange a b) df).
Proof.
  intros Ha Hb Hta. unfold swap_columns. rewrite Ha, Hb. simpl.
  f_equal. unfold rename, relabel. rewrite map_map.
  apply map_ext_in. intros [k c] Hin. simpl. f_equal.
  pose proof (column_not_buffer df k c Hin) as Hk.
  revert Hta Hk. generalize (temp_name_for (columns df)).
  intros t Hta Hk. unfold exchange. simpl.
  destruct (String.eqb_spec a b); subst; simpl;
    destruct (String.eqb_spec b k); subst; simpl;
    try (destruct (String.eqb_spec a k); subst; simpl);
    repeat match goal with
           | |- context [String.eqb ?x ?y] =>
               destruct (String.eqb_spec x y); subst; simpl
           end; congruence.
Qed.

(** When it is the buffer name, the second call undoes the first. *)
Lemma swap_columns_void (cfg : config) (df : table) (a b : string) :
  Dict.first (Dict.keys (columns_to_rename cfg)) = Ok a ->
  Dict.first (Dict.values (columns_to_rename cfg)) = Ok b ->
  temp_name_for (columns df) = a ->
  swap_columns cfg df = Ok df.
Proof.
  intros Ha Hb Hta. unfold swap_columns. rewrite Ha, Hb. simpl.
  f_equal. unfold rename. rewrite map_map.
  rewrite <- (map_id df) at 2. apply map_ext_in.
  intros [k c] Hin. simpl. f_equal.
  pose proof (column_not_buffer df k c Hin) as Hk.
  revert Hta Hk. generalize (temp_name_for (columns df)).
  intros t Hta Hk. subst t.
  destruct (String.eqb_spec a b); subst; simpl;
    destruct (String.eqb_spec b k); subst; simpl;
    try (destruct (String.eqb_spec a k); subst; simpl);
    repeat match goal with
           | |- context [String.eqb ?x ?y] =>
               destruct (String.eqb_spec x y); subst; simpl
           end; congruence.
Qed.

Lemma coerce_yield_key_error (df : table) (k : string) :
  coerce_yield df = Raise (KeyError k) <->
  k = "Annual_yield" /\ has_column df "Annual_yield" = false.
Proof.
  unfold coerce_yield. rewrite <- select_nil.
  destruct (select df "Annual_yield") as [|c [|c' l]]; split.
  - intros H. injection H as <-. now split.
  - intros [-> _]. reflexivity.
  - discriminate.
  - intros [_ H]. discriminate.
  - discriminate.
  - intros [_ H]. discriminate.
Qed.

Lemma has_column_relabel_exchange (a b n : string) (df : table) :
  has_column (relabel (exchange a b) df) n = has_column df (exchange a b n).
Proof.
  destruct (has_column df (exchange a b n)) eqn:E.
  - destruct (has_column (relabel (exchange a b) df) n) eqn:E'; [reflexivity|].
    apply select_nil in E'. rewrite select_relabel_exchange in E'.
    apply select_nil in E'. congruence.
  - apply select_nil. rewrite select_relabel_exchange. now apply select_nil.
Qed.

(** C8, as the code has it, for any rename pair (a, b): the only
    [KeyError] [rename_columns] can raise is the one of
    [df['Annual_yield']] after the swap.  It is raised exactly when the
    table has no column that the swap labels Annual_yield: the column
    labelled b when a is Annual_yield, the column labelled a when b is,
    the column Annual_yield itself otherwise.  Names of the pair that are
    not columns are ignored by the swap, and a first name that is the
    buffer name itself makes the swap void.  The error is not caught by
    the correction that follows. *)
Theorem rename_columns_key_error_any_pair (cfg : config) (df : table)
    (a b : string) :
  Dict.first (Dict.keys (columns_to_rename cfg)) = Ok a ->
  Dict.first (Dict.values (columns_to_rename cfg)) = Ok b ->
  (temp_name_for (columns df) <> a ->
   (rename_columns cfg df = Raise (KeyError "Annual_yield")
    <-> has_column df (exchange a b "Annual_yield") = false)) /\
  (temp_name_for (columns df) = a ->
   (rename_columns cfg df = Raise (KeyError "Annual_yield")
    <-> has_column df "Annual_yield" = false)) /\
  (In a (columns df) \/ (String.length a < 22)%nat ->
   temp_name_for (columns df) <> a) /\
  (forall k, rename_columns cfg df = Raise (KeyError k) -> k = "Annual_yield") /\
  (forall e, rename_columns cfg df = Raise e -> correct cfg df = Raise e).
Proof.
  intros Ha Hb. split; [|split; [|split; [|split]]].
  - intros Hta. unfold rename_columns.
    rewrite (swap_columns_exchange cfg df a b Ha Hb Hta). simpl.
    rewrite coerce_yield_key_error, has_column_relabel_exchange. tauto.
  - intros Hta. unfold rename_columns.
    rewrite (swap_columns_void cfg df a b Ha Hb Hta). simpl.
    rewrite coerce_yield_key_error. tauto.
  - intros [Hin | Hlen] E.
    + apply (temp_name_fresh (columns df)). now rewrite E.
    + pose proof (temp_name_long (columns df)) as H. rewrite E in H. lia.
  - intros k. unfold rename_columns, swap_columns. rewrite Ha, Hb. simpl.
    intros H. now apply coerce_yield_key_error in H.
  - intros e H. unfold correct. now rewrite H.
Qed.

Lemma rename_columns_key_error_any_pair_witness :
  let cfg := {| columns_to_rename := [("Yield", "Annual_yield")];
                values_to_rename := [] |} in
  let df := [("Field_ID", [VText "F1"]); ("Annual_yield", [VNum 150])] in
  has_column df (exchange "Yield" "Annual_yield" "Annual_yield") = false /\
  rename_columns cfg df = Raise (KeyError "Annual_yield") /\
  correct cfg df = Raise (KeyError "Annual_yield").
Proof.
  intros cfg df.
  pose proof (rename_columns_key_error_any_pair cfg df "Yield" "Annual_yield"
                eq_refl eq_refl) as (H1 & _ & H3 & _ & H5).
  assert (E : rename_columns cfg df = Raise (KeyError "Annual_yield")).
  { apply H1; [|reflexivity]. apply H3. right. simpl. lia. }
  split; [reflexivity|]. split; [exact E|]. apply H5. exact E.
Defined.

End RenameFailure.

(** ** The table of means *)

Module MeanTable.
Import Frame WeatherDataProcessor FrameFacts WeatherFacts.


Section Library.

Variable mean : list Q -> value.



End Library.

(** The functions of [WeatherDataProcessor] are those of [Means] at the
    exact mean. *)
Lemma mean_cell_exact (cells : column) :
  mean_cell cells = Means.mean_cell Means.exact cells.
Proof. reflexivity. Qed.

Lemma groupby_mean_exact (df : table) (sc : string) (ms : list string) :
  groupby_mean df sc ms = Means.groupby_mean Means.exact df sc ms.
Proof. reflexivity. Qed.

Lemma calculate_means_exact (st : state) :
  calculate_means st = Means.calculate_means Means.exact st.
Proof. reflexivity. Qed.



End MeanTable.

(** ** The whole correction *)

Module WholeCorrection.
Import Frame FieldDataProcessor FrameFacts SwapFacts FieldFacts Reference.
Import FieldExtras CorrectionExtras ApplyCorrections CorrectExtras DecimalFacts.

(** *** Cell by cell *)

Lemma yield_cells (y : column) : Forall2 InPlace.yield_cell y (to_numeric_coerce y).
Proof.
  induction y as [|v y IH]; simpl; constructor; [|exact IH].
  destruct v as [| q | s]; simpl; try reflexivity.
  split; [now destruct (Text.parse_decimal s)|].
  intros Hs _. destruct (decimal_of_signed _ Hs) as (q & Hq).
  rewrite string_of_list_ascii_of_string in Hq. exists q. now rewrite Hq.
Qed.

Lemma elevation_cells (e : column) :
  is_object e = false -> Forall2 InPlace.elevation_cell e (map abs_value e).
Proof.
  unfold is_object. induction e as [|v e IH]; simpl; intros H; constructor.
  - destruct v as [| q | s]; simpl in *; [reflexivity | reflexivity | discriminate].
  - apply IH. now apply orb_false_elim in H as [_ H].
Qed.

Lemma crop_cells (m : dict string) (k : column) :
  Forall2 InPlace.crop_cell k (map (step_cell m) k).
Proof.
  induction k as [|v k IH]; simpl; constructor; [|exact IH].
  now destruct v.
Qed.

Lemma corrected_length (l : string) (c c' : column) :
  InPlace.corrected l c c' -> length c' = length c.
Proof.
  unfold InPlace.corrected.
  destruct (String.eqb l "Annual_yield");
    [intros H; symmetry; exact (Forall2_length H)|].
  destruct (String.eqb l "Elevation");
    [intros H; symmetry; exact (Forall2_length H)|].
  destruct (String.eqb l "Crop_type");
    [intros H; symmetry; exact (Forall2_length H)|].
  now intros ->.
Qed.

Lemma In_select (T : table) (l : string) (c : column) :
  In (l, c) T -> In c (select T l).
Proof.
  intros H. unfold select. apply in_map_iff. exists (l, c). split; [reflexivity|].
  apply filter_In. split; [exact H | apply String.eqb_refl].
Qed.

(** A table rebuilt pair by pair from one with the same data. *)
Lemma Forall2_data (P : column -> string * column -> Prop)
    (g : string * column -> string * column) (T0 : table) :
  (forall p0, In p0 T0 -> P (snd p0) (g p0)) ->
  forall T : table, map snd T0 = map snd T ->
  Forall2 (fun p p' => P (snd p) p') T (map g T0).
Proof.
  induction T0 as [|p0 T0 IH]; intros H [|p T] E; simpl in *;
    try discriminate; constructor.
  - injection E as E0 _. rewrite <- E0. apply H. now left.
  - injection E as _ E. apply IH; [|exact E]. intros q Hq. apply H. now right.
Qed.

(** The correction works in place: when it succeeds the table has the
    columns it had, in the same positions, each with the rows it had, in
    the same positions.  A column that ends under the label Annual_yield
    is, row by row, a number or null where it held one and never text;
    one under Elevation is, row by row, the magnitude of the number it
    held; one under Crop_type is text exactly on the rows that held text;
    a column under any other label is the column it was.  So a table
    whose columns all have [n] cells comes out with all of [n] cells. *)
Theorem correct_in_place (cfg : config) (df df' : table) :
  correct cfg df = Ok df' ->
  Forall2 (fun p p' => InPlace.corrected (fst p') (snd p) (snd p')) df df' /\
  length df' = length df /\
  (forall n, Shape.rectangular n df -> Shape.rectangular n df').
Proof.
  intros H.
  assert (HF : Forall2 (fun p p' => InPlace.corrected (fst p') (snd p) (snd p'))
                       df df').
  { revert H. unfold correct, rename_columns.
    destruct (swap_columns cfg df) as [df0|e] eqn:Hsw; simpl; [|discriminate].
    pose proof (swap_columns_data cfg df df0 Hsw) as Hdata.
    unfold coerce_yield.
    destruct (select df0 "Annual_yield") as [|y [|y' l]] eqn:Hy;
      simpl; try discriminate.
    pose proof (select_single_has _ _ _ Hy) as Hhy.
    set (df1 := assign df0 "Annual_yield" (to_numeric_coerce y)).
    assert (H1o : forall n, n <> "Annual_yield" -> select df1 n = select df0 n)
      by (intros n Hn; now apply select_assign_other).
    unfold apply_corrections.
    destruct (abs_step_cases df1 "Elevation")
      as [[_ E] | [(_ & _ & E) | (_ & Hfl & E)]]; rewrite E; simpl;
      try discriminate.
    set (df2 := update df1 "Elevation" (map abs_value)).
    destruct (crop_step_cases cfg df2 "Crop_type")
      as [[_ E1] | [(k & Hk & _ & E1) | (_ & _ & E1)]]; rewrite E1;
      try discriminate.
    intros H. injection H as <-.
    assert (Hk0 : select df0 "Crop_type" = [k]).
    { rewrite <- H1o by discriminate. unfold df2 in Hk.
      rewrite select_update_other in Hk by discriminate. exact Hk. }
    rewrite H1o in Hfl by discriminate.
    unfold assign at 1. rewrite (select_single_has _ _ _ Hk).
    unfold df2, df1, assign. rewrite Hhy. unfold update. rewrite !map_map.
    apply (Forall2_data
             (fun c p' => InPlace.corrected (fst p') c (snd p'))).
    2:{ exact Hdata. }
    intros [l c] Hin. simpl.
    destruct (String.eqb_spec l "Annual_yield") as [-> | N1]; simpl.
    { apply In_select in Hin. rewrite Hy in Hin. destruct Hin as [<- | []].
      apply yield_cells. }
    destruct (String.eqb_spec l "Elevation") as [-> | N2]; simpl.
    { apply elevation_cells. apply Hfl. now apply In_select. }
    destruct (String.eqb_spec l "Crop_type") as [-> | N3]; simpl.
    { apply In_select in Hin. rewrite Hk0 in Hin. destruct Hin as [<- | []].
      apply crop_cells. }
    unfold InPlace.corrected. simpl.
    apply String.eqb_neq in N1, N2, N3. now rewrite N1, N2, N3. }
  split; [exact HF|]. split; [symmetry; exact (Forall2_length HF)|].
  intros n. unfold Shape.rectangular. clear H.
  induction HF as [|p p' T T' Hp _ IH]; intros Hr; [constructor|].
  apply Forall_cons_iff in Hr as [Hr1 Hr2]. constructor; [|now apply IH].
  rewrite <- Hr1. now apply corrected_length with (fst p').
Qed.

Lemma correct_in_place_witness :
  let df' := [("Field_ID", [VText "F1"]); ("Annual_yield", [VNum 150]);
              ("Crop_type", [VText "cassava"]); ("Elevation", [VNum (123 # 10)])] in
  Forall2 (fun p p' => InPlace.corrected (fst p') (snd p) (snd p'))
          ScenarioA.survey df' /\
  length df' = length ScenarioA.survey /\
  (forall n, Shape.rectangular n ScenarioA.survey -> Shape.rectangular n df').
Proof.
  apply (correct_in_place ScenarioA.cfg ScenarioA.survey).
  vm_compute. reflexivity.
Defined.

(** *** Column by column *)

(** The whole correction, on a survey table as the database gives it:
    with the rename pair (Annual_yield, Crop_type), a Crop_type column
    that really holds the yields, an Annual_yield column that really
    holds crop names, in ASCII, and an Elevation column of a numeric
    dtype without the least [int64], [rename_columns] followed by
    [apply_corrections] succeeds.  The yields end up under Annual_yield,
    as numbers and nulls, row by row; the crop names normalised and
    corrected under Crop_type; the elevations as absolute values; every
    label exchanged as the pair asks; and every other column as it
    was. *)
Theorem correct_composes (cfg : config) (df : table) (y k e : column) :
  Dict.first (Dict.keys (columns_to_rename cfg)) = Ok "Annual_yield" ->
  Dict.first (Dict.values (columns_to_rename cfg)) = Ok "Crop_type" ->
  select df "Crop_type" = [y] ->
  select df "Annual_yield" = [k] ->
  is_object k = true -> forallb InPlace.ascii_text k = true ->
  select df "Elevation" = [e] ->
  Dtype.numeric e = true -> Dtype.int64_safe e = true ->
  exists df' y',
    correct cfg df = Ok df' /\
    select df' "Annual_yield" = [y'] /\
    Forall2 InPlace.yield_cell y y' /\
    is_object y' = false /\
    select df' "Crop_type" = [map (step_cell (values_to_rename cfg)) k] /\
    select df' "Elevation" = [map abs_value e] /\
    columns df' = map (exchange "Annual_yield" "Crop_type") (columns df) /\
    (forall n, n <> "Annual_yield" -> n <> "Crop_type" -> n <> "Elevation" ->
               select df' n = select df n).
Proof.
  intros Ha Hb Hy Hk Hko _ He Heo _. apply numeric_float in Heo.
  set (ex := exchange "Annual_yield" "Crop_type").
  set (R := relabel ex df).
  assert (HR : forall n, select R n = select df (ex n))
    by (intros n; apply select_relabel_exchange).
  assert (HRy : select R "Annual_yield" = [y]) by (rewrite HR; exact Hy).
  assert (HRk : select R "Crop_type" = [k]) by (rewrite HR; exact Hk).
  assert (HRe : select R "Elevation" = [e]) by (rewrite HR; exact He).
  set (df1 := assign R "Annual_yield" (to_numeric_coerce y)).
  assert (H1 : rename_columns cfg df = Ok df1).
  { rewrite (FieldClaims.rename_columns_main_pair cfg df Ha Hb). now rewrite Hy. }
  assert (H1y : select df1 "Annual_yield" = [to_numeric_coerce y])
    by (apply select_assign_single with (c := y); exact HRy).
  assert (H1o : forall n, n <> "Annual_yield" -> select df1 n = select R n)
    by (intros n Hn; now apply select_assign_single_other with (c := y)).
  assert (H1e : select df1 "Elevation" = [e]) by (rewrite H1o; [exact HRe | discriminate]).
  assert (H1k : select df1 "Crop_type" = [k]) by (rewrite H1o; [exact HRk | discriminate]).
  set (df2 := update df1 "Elevation" (map abs_value)).
  assert (H2 : abs_step df1 "Elevation" = Ok df2).
  { destruct (abs_step_cases df1 "Elevation")
      as [[E _] | [(_ & (c0 & Hc0 & Hobj0) & _) | (_ & _ & E)]].
    - congruence.
    - rewrite H1e in Hc0. destruct Hc0 as [<- | []]. congruence.
    - exact E. }
  assert (H2k : select df2 "Crop_type" = [k])
    by (unfold df2; rewrite select_update_other; [exact H1k | discriminate]).
  set (df3 := assign df2 "Crop_type" (map (step_cell (values_to_rename cfg)) k)).
  assert (H3 : crop_step cfg df2 "Crop_type" = Ok df3).
  { rewrite (crop_step_column cfg df2 "Crop_type" k H2k).
    now rewrite correct_column_object. }
  exists df3, (to_numeric_coerce y). split.
  { unfold correct. rewrite H1. simpl. unfold apply_corrections.
    rewrite H2. simpl. exact H3. }
  split.
  { unfold df3. rewrite select_assign_single_other with (c := k);
      [|exact H2k | discriminate].
    unfold df2. rewrite select_update_other; [exact H1y | discriminate]. }
  split; [apply yield_cells|]. split; [apply coerce_no_text|].
  split; [now apply select_assign_single with (c := k)|].
  split.
  { unfold df3. rewrite select_assign_single_other with (c := k);
      [|exact H2k | discriminate].
    unfold df2. rewrite select_update, H1e. reflexivity. }
  split.
  { unfold df3. rewrite (columns_assign_single _ _ k _ H2k).
    unfold df2. rewrite columns_update.
    unfold df1. rewrite (columns_assign_single _ _ y _ HRy).
    apply columns_relabel. }
  intros n Hn1 Hn2 Hn3.
  unfold df3. rewrite select_assign_single_other with (c := k);
    [|exact H2k | exact Hn2].
  unfold df2. rewrite select_update_other by exact Hn3.
  rewrite H1o by exact Hn1. rewrite HR.
  unfold ex, exchange.
  apply String.eqb_neq in Hn1, Hn2. now rewrite Hn1, Hn2.
Qed.

Lemma correct_composes_witness :
  exists df' y',
    correct ScenarioA.cfg ScenarioA.survey = Ok df' /\
    select df' "Annual_yield" = [y'] /\
    Forall2 InPlace.yield_cell [VText "150.0"] y' /\
    is_object y' = false /\
    select df' "Crop_type"
    = [map (step_cell (values_to_rename ScenarioA.cfg)) [VText " Cassaval "]] /\
    select df' "Elevation" = [map abs_value [VNum (-123 # 10)]] /\
    columns df' = map (exchange "Annual_yield" "Crop_type")
                      (columns ScenarioA.survey) /\
    (forall n, n <> "Annual_yield" -> n <> "Crop_type" -> n <> "Elevation" ->
               select df' n = select ScenarioA.survey n).
Proof.
  apply (correct_composes ScenarioA.cfg ScenarioA.survey
           [VText "150.0"] [VText " Cassaval "] [VNum (-123 # 10)]);
    reflexivity.
Defined.

End WholeCorrection.
